(** * RateMyOfficial: the review ledger and the rating aggregator

    A shallow embedding of the storage layer of the application (class
    [DatabaseStorage], imported as "./storage", over the tables of
    "@shared/schema"), of the route handlers that reach it
    (server/routes.ts), and the properties of rating aggregation and
    review integrity that hold of them.

    Tables are lists of rows in table order.  A storage method is a
    computation over the database that may throw and may write to the
    console; a thrown error keeps the writes made before it, since the
    methods modelled here run outside any transaction. *)

From Stdlib Require Import ZArith QArith Qround String Bool Lia List Permutation
  Sorted.
Import ListNotations.
Local Open Scope string_scope.
Local Open Scope list_scope.
Local Open Scope Z_scope.

Set Implicit Arguments.

(* ================================================================== *)
(** * Data model (@shared/schema) *)
(* ================================================================== *)

(** Row of table [users].  The columns the rating subsystem never reads
    (password, verification token and the like) are left out. *)
Module User.
Record t : Type := mk {
    id : Z;
    email : string;
    firstName : string;
    lastName : string;
    role : string;
    userType : string;
    photoUrl : option string
  }.
End User.

(** Row of table [officials]; [averageRating] and [totalReviews] are the
    cached aggregate. *)
Module Official.
Record t : Type := mk {
    id : Z;
    firstName : string;
    lastName : string;
    age : Z;
    location : string;
    association : string;
    yearsExperience : Z;
    photoUrl : option string;
    averageRating : Z;
    totalReviews : Z
  }.

(** [.set({ averageRating, totalReviews })] on one row. *)
Definition set_rating (o : t) (avg total : Z) : t :=
    mk (id o) (firstName o) (lastName o) (age o) (location o)
       (association o) (yearsExperience o) (photoUrl o) avg total.
End Official.

(** Row of table [events]; dates are milliseconds since the epoch. *)
Module Event.
Record t : Type := mk {
    id : Z;
    name : string;
    date : Z;
    venue : string;
    eventType : string;
    host : string
  }.
End Event.

(** Row of table [event_officials]: the assignment of an official to an
    event. *)
Module EventOfficial.
Record t : Type := mk {
    id : Z;
    eventId : Z;
    officialId : Z;
    role : option string
  }.
End EventOfficial.

(** Row of table [event_teams]. *)
Module EventTeam.
Record t : Type := mk {
    id : Z;
    eventId : Z;
    teamId : Z
  }.
End EventTeam.

(** Row of table [reviews]. *)
Module ReviewRow.
Record t : Type := mk {
    id : Z;
    officialId : Z;
    userId : Z;
    eventId : Z;
    mechanics : Z;
    professionalism : Z;
    positioning : Z;
    stalling : Z;
    consistency : Z;
    appearance : Z;
    comment : string;
    date : Z;
    isReported : bool;
    isAnonymous : bool
  }.

(** [.set({ isReported: true })] on one row. *)
Definition set_reported (r : t) : t :=
    mk (id r) (officialId r) (userId r) (eventId r) (mechanics r)
       (professionalism r) (positioning r) (stalling r) (consistency r)
       (appearance r) (comment r) (date r) true (isAnonymous r).
End ReviewRow.

(** Type [Review] of the schema: a review row joined with a summary of
    its user and of its event. *)
Module Review.
Record user_t : Type := mk_user {
    firstName : string;
    lastName : string;
    userType : string;
    photoUrl : option string
  }.
Record event_t : Type := mk_event {
    name : string;
    date : Z
  }.
Record t : Type := mk {
    row : ReviewRow.t;
    user : user_t;
    event : event_t
  }.
End Review.

(** Argument of [createReview]: [InsertReview & { userId }]. *)
Module InsertReview.
Record t : Type := mk {
    officialId : Z;
    eventId : Z;
    mechanics : Z;
    professionalism : Z;
    positioning : Z;
    stalling : Z;
    consistency : Z;
    appearance : Z;
    comment : option string;
    isAnonymous : bool;
    userId : Z
  }.
End InsertReview.

(** Argument of [createOfficial]: [InsertOfficial & { photoUrl? }]. *)
Module InsertOfficial.
Record t : Type := mk {
    firstName : string;
    lastName : string;
    age : Z;
    location : string;
    association : string;
    yearsExperience : Z;
    photoUrl : option string
  }.
End InsertOfficial.

(** Interface [CategoryAverages]. *)
Module CategoryAverages.
Record t : Type := mk {
    mechanics : Z;
    professionalism : Z;
    positioning : Z;
    stalling : Z;
    consistency : Z;
    appearance : Z;
    overall : Z
  }.
End CategoryAverages.

(** The accumulator of the [reduce] in [calculateCategoryAverages]. *)
Module Sums.
Record t : Type := mk {
    mechanics : Z;
    professionalism : Z;
    positioning : Z;
    stalling : Z;
    consistency : Z;
    appearance : Z
  }.
End Sums.

(** The database: the tables the subsystem reads or writes, and the
    last value handed out by the serial sequence of each table it
    inserts into. *)
Record Database : Type := mkDatabase {
  users : list User.t;
  officials : list Official.t;
  events : list Event.t;
  eventOfficials : list EventOfficial.t;
  eventTeams : list EventTeam.t;
  reviews : list ReviewRow.t;
  officials_id_seq : Z;
  reviews_id_seq : Z
}.

Definition with_users (d : Database) (us : list User.t) : Database :=
  mkDatabase us (officials d) (events d) (eventOfficials d) (eventTeams d)
             (reviews d) (officials_id_seq d) (reviews_id_seq d).

Definition with_officials (d : Database) (os : list Official.t) : Database :=
  mkDatabase (users d) os (events d) (eventOfficials d) (eventTeams d)
             (reviews d) (officials_id_seq d) (reviews_id_seq d).

Definition with_events (d : Database) (es : list Event.t) : Database :=
  mkDatabase (users d) (officials d) es (eventOfficials d) (eventTeams d)
             (reviews d) (officials_id_seq d) (reviews_id_seq d).

Definition with_eventOfficials (d : Database) (l : list EventOfficial.t)
  : Database :=
  mkDatabase (users d) (officials d) (events d) l (eventTeams d)
             (reviews d) (officials_id_seq d) (reviews_id_seq d).

Definition with_eventTeams (d : Database) (l : list EventTeam.t)
  : Database :=
  mkDatabase (users d) (officials d) (events d) (eventOfficials d) l
             (reviews d) (officials_id_seq d) (reviews_id_seq d).

Definition with_reviews (d : Database) (rs : list ReviewRow.t) : Database :=
  mkDatabase (users d) (officials d) (events d) (eventOfficials d)
             (eventTeams d) rs (officials_id_seq d) (reviews_id_seq d).

(* ================================================================== *)
(** * Storage computations: state, exceptions, console *)
(* ================================================================== *)

(** A JavaScript [Error], identified by its message. *)
Definition Error : Type := string.

Inductive Outcome (A : Type) : Type :=
| Returned (a : A)
| Thrown (e : Error).
Arguments Thrown {A} e.

(** A line of console output. *)
Inductive ConsoleLine : Type :=
| ConsoleLog (msg : string)
| ConsoleError (msg : string) (e : Error).

(** What running a method leaves behind: the database, the lines it
    wrote to the console, and how it ended. *)
Record Run (A : Type) : Type := mkRun {
  db_after : Database;
  console : list ConsoleLine;
  outcome : Outcome A
}.

(** An [async] storage method. *)
Definition Promise (A : Type) : Type := Database -> Run A.

Definition ret {A} (a : A) : Promise A :=
  fun d => mkRun d [] (Returned a).

Definition throw {A} (e : Error) : Promise A :=
  fun d => mkRun d [] (Thrown e).

Definition bind {A B} (m : Promise A) (k : A -> Promise B) : Promise B :=
  fun d =>
    let r := m d in
    match outcome r with
    | Returned a =>
        let r' := k a (db_after r) in
        mkRun (db_after r') (console r ++ console r') (outcome r')
    | Thrown e => mkRun (db_after r) (console r) (Thrown e)
    end.

(** [try { m } catch (error) { handler error }]. *)
Definition try_catch {A} (m : Promise A) (handler : Error -> Promise A)
  : Promise A :=
  fun d =>
    let r := m d in
    match outcome r with
    | Returned _ => r
    | Thrown e =>
        let r' := handler e (db_after r) in
        mkRun (db_after r') (console r ++ console r') (outcome r')
    end.

(** A read-only query. *)
Definition query {A} (q : Database -> A) : Promise A :=
  fun d => mkRun d [] (Returned (q d)).

(** A write statement ([insert], [update], [delete]). *)
Definition execute (w : Database -> Database) : Promise unit :=
  fun d => mkRun (w d) [] (Returned tt).

Definition console_log (msg : string) : Promise unit :=
  fun d => mkRun d [ConsoleLog msg] (Returned tt).

Definition console_error (msg : string) (e : Error) : Promise unit :=
  fun d => mkRun d [ConsoleError msg e] (Returned tt).

Declare Scope promise_scope.
Delimit Scope promise_scope with promise.
Notation "x <- m ;; k" := (bind m (fun x => k))
  (at level 100, m at next level, right associativity) : promise_scope.
Notation "m ;; k" := (bind m (fun _ => k))
  (at level 100, right associativity) : promise_scope.
Local Open Scope promise_scope.

(** [for (const x of xs) { await body(x) }]. *)
Fixpoint for_of {A} (xs : list A) (body : A -> Promise unit) : Promise unit :=
  match xs with
  | [] => ret tt
  | x :: xs' => body x ;; for_of xs' body
  end.

(* ================================================================== *)
(** * JavaScript arithmetic *)
(* ================================================================== *)

(** [Math.round]: the nearest integer, a tie going up.  The argument is
    taken as the exact quotient; the double the engine computes for
    [s / n] rounds the same way as long as [s] and [n] stay far below
    2^53, which the 32-bit columns guarantee. *)
Definition Math_round (x : Q) : Z := Qfloor (x + (1 # 2))%Q.

(** [a / b] on numbers holding integers. *)
Definition js_div (a b : Z) : Q := (inject_Z a / inject_Z b)%Q.

(* ================================================================== *)
(** * class DatabaseStorage *)
(* ================================================================== *)

(** The result of [getOfficials]. *)
Record OfficialsPage : Type := mkOfficialsPage {
  data : list Official.t;
  total : Z
}.

(** [getOfficials(page = 1, limit = 20)]: [.limit(limit).offset(offset)]
    over the table, and the row count. *)
Definition getOfficials (page limit : Z) : Promise OfficialsPage :=
  let offset := (page - 1) * limit in
  data <- query (fun d =>
            firstn (Z.to_nat limit) (skipn (Z.to_nat offset) (officials d))) ;;
  count <- query (fun d => Z.of_nat (length (officials d))) ;;
  ret (mkOfficialsPage data count).

Definition getOfficials_default : Promise OfficialsPage := getOfficials 1 20.

(** [const [official] = await ...where(eq(officials.id, id))]. *)
Definition getOfficialById (id : Z) : Promise (option Official.t) :=
  rows <- query (fun d =>
            filter (fun o => Official.id o =? id) (officials d)) ;;
  ret (hd_error rows).

(** [photoUrl: official.photoUrl ? `/${official.photoUrl}` : null]; the
    empty string is falsy. *)
Definition stored_photoUrl (p : option string) : option string :=
  match p with
  | Some u => if String.eqb u "" then None else Some (String.append "/" u)
  | None => None
  end.

Definition createOfficial (official : InsertOfficial.t)
  : Promise Official.t :=
  newOfficial <- query (fun d =>
    Official.mk (officials_id_seq d + 1)
      (InsertOfficial.firstName official) (InsertOfficial.lastName official)
      (InsertOfficial.age official) (InsertOfficial.location official)
      (InsertOfficial.association official)
      (InsertOfficial.yearsExperience official)
      (stored_photoUrl (InsertOfficial.photoUrl official))
      0 0) ;;
  execute (fun d =>
    mkDatabase (users d) (officials d ++ [newOfficial]) (events d)
      (eventOfficials d) (eventTeams d) (reviews d)
      (Official.id newOfficial) (reviews_id_seq d)) ;;
  ret newOfficial.

(** The selected columns of the two review queries: the review row, and
    the nested [user] and [event] objects. *)
Definition review_with_details (r : ReviewRow.t) (u : User.t) (e : Event.t)
  : Review.t :=
  Review.mk r
    (Review.mk_user (User.firstName u) (User.lastName u) (User.userType u)
                    (User.photoUrl u))
    (Review.mk_event (Event.name e) (Event.date e)).

(** [.from(reviews).innerJoin(users, eq(reviews.userId, users.id))
     .innerJoin(events, eq(reviews.eventId, events.id))]: one row for
    every review, user and event that match. *)
Definition reviews_join_users_events (d : Database) : list Review.t :=
  flat_map (fun r =>
    flat_map (fun u =>
      map (fun e => review_with_details r u e)
          (filter (fun e => ReviewRow.eventId r =? Event.id e) (events d)))
      (filter (fun u => ReviewRow.userId r =? User.id u) (users d)))
    (reviews d).

(** [.orderBy(desc(reviews.date))], as a stable insertion sort. *)
Fixpoint insert_by_date_desc (x : Review.t) (l : list Review.t)
  : list Review.t :=
  match l with
  | [] => [x]
  | y :: l' =>
      if ReviewRow.date (Review.row y) <=? ReviewRow.date (Review.row x)
      then x :: l
      else y :: insert_by_date_desc x l'
  end.

Definition orderBy_date_desc (l : list Review.t) : list Review.t :=
  fold_right insert_by_date_desc [] l.

(** The select statement of [getReviewsForOfficial]. *)
Definition reviews_for_official (officialId : Z) (d : Database)
  : list Review.t :=
  orderBy_date_desc
    (filter (fun j => ReviewRow.officialId (Review.row j) =? officialId)
            (reviews_join_users_events d)).

Definition getReviewsForOfficial (officialId : Z) : Promise (list Review.t) :=
  query (reviews_for_official officialId).

(** The callback and the initial value of [reviews.reduce]. *)
Definition add_review (acc : Sums.t) (review : Review.t) : Sums.t :=
  let r := Review.row review in
  Sums.mk (Sums.mechanics acc + ReviewRow.mechanics r)
          (Sums.professionalism acc + ReviewRow.professionalism r)
          (Sums.positioning acc + ReviewRow.positioning r)
          (Sums.stalling acc + ReviewRow.stalling r)
          (Sums.consistency acc + ReviewRow.consistency r)
          (Sums.appearance acc + ReviewRow.appearance r).

Definition sums_zero : Sums.t := Sums.mk 0 0 0 0 0 0.

(** The body of [calculateCategoryAverages] after the reviews are
    fetched. *)
Definition category_averages_of (reviews : list Review.t)
  : CategoryAverages.t :=
  if (length reviews =? 0)%nat then CategoryAverages.mk 0 0 0 0 0 0 0
  else
    let sums := fold_left add_review reviews sums_zero in
    let count := Z.of_nat (length reviews) in
    let mechanics := Math_round (js_div (Sums.mechanics sums) count) in
    let professionalism :=
      Math_round (js_div (Sums.professionalism sums) count) in
    let positioning := Math_round (js_div (Sums.positioning sums) count) in
    let stalling := Math_round (js_div (Sums.stalling sums) count) in
    let consistency := Math_round (js_div (Sums.consistency sums) count) in
    let appearance := Math_round (js_div (Sums.appearance sums) count) in
    let overall :=
      Math_round
        (js_div (mechanics + professionalism + positioning + stalling
                 + consistency + appearance) 6) in
    CategoryAverages.mk mechanics professionalism positioning stalling
                        consistency appearance overall.

Definition calculateCategoryAverages (officialId : Z)
  : Promise CategoryAverages.t :=
  reviews <- getReviewsForOfficial officialId ;;
  ret (category_averages_of reviews).

Definition updateOfficialRating (id : Z) : Promise unit :=
  averages <- calculateCategoryAverages id ;;
  reviews <- getReviewsForOfficial id ;;
  execute (fun d =>
    with_officials d
      (map (fun o =>
              if Official.id o =? id
              then Official.set_rating o (CategoryAverages.overall averages)
                                       (Z.of_nat (length reviews))
              else o)
           (officials d))).

Definition deleteOfficial (id : Z) : Promise unit :=
  execute (fun d =>
    with_eventOfficials d
      (filter (fun a => negb (EventOfficial.officialId a =? id))
              (eventOfficials d))) ;;
  execute (fun d =>
    with_reviews d
      (filter (fun r => negb (ReviewRow.officialId r =? id)) (reviews d))) ;;
  execute (fun d =>
    with_officials d
      (filter (fun o => negb (Official.id o =? id)) (officials d))).

(** The messages of the errors the ledger throws.  The specification
    names them [DuplicateReviewError], [OfficialNotAssignedError] and
    [ReviewNotFoundError]. *)
Definition DuplicateReviewError : Error :=
  "You have already reviewed this official for this event".
Definition OfficialNotAssignedError : Error :=
  "This official was not assigned to this event".
Definition ReviewNotFoundError : Error := "Review not found".

(** [.values({ ...review, comment: review.comment || "", date: new Date(),
    isReported: false })] with the id the sequence hands out; [now] is
    the reading of the clock. *)
Definition new_review_row (id now : Z) (review : InsertReview.t)
  : ReviewRow.t :=
  ReviewRow.mk id
    (InsertReview.officialId review) (InsertReview.userId review)
    (InsertReview.eventId review)
    (InsertReview.mechanics review) (InsertReview.professionalism review)
    (InsertReview.positioning review) (InsertReview.stalling review)
    (InsertReview.consistency review) (InsertReview.appearance review)
    (match InsertReview.comment review with
     | Some c => c
     | None => ""
     end)
    now false (InsertReview.isAnonymous review).

Definition insert_review (now : Z) (review : InsertReview.t)
  : Promise ReviewRow.t :=
  newReview <- query (fun d =>
                 new_review_row (reviews_id_seq d + 1) now review) ;;
  execute (fun d =>
    mkDatabase (users d) (officials d) (events d) (eventOfficials d)
      (eventTeams d) (reviews d ++ [newReview])
      (officials_id_seq d) (ReviewRow.id newReview)) ;;
  ret newReview.

(** The condition of the duplicate check:
    [and(eq(reviews.userId, review.userId),
         eq(reviews.officialId, review.officialId),
         eq(reviews.eventId, review.eventId))]. *)
Definition same_triple (review : InsertReview.t) (r : ReviewRow.t) : bool :=
  (ReviewRow.userId r =? InsertReview.userId review)
  && (ReviewRow.officialId r =? InsertReview.officialId review)
  && (ReviewRow.eventId r =? InsertReview.eventId review).

(** The condition of the assignment check:
    [and(eq(eventOfficials.officialId, review.officialId),
         eq(eventOfficials.eventId, review.eventId))]. *)
Definition assigns (review : InsertReview.t) (a : EventOfficial.t) : bool :=
  (EventOfficial.officialId a =? InsertReview.officialId review)
  && (EventOfficial.eventId a =? InsertReview.eventId review).

Definition createReview (now : Z) (review : InsertReview.t)
  : Promise (option Review.t) :=
  existingReview <- query (fun d => filter (same_triple review) (reviews d)) ;;
  if (0 <? length existingReview)%nat then throw DuplicateReviewError
  else
    officialEvent <- query (fun d =>
      filter (assigns review) (eventOfficials d)) ;;
    if (length officialEvent =? 0)%nat then throw OfficialNotAssignedError
    else
      newReview <- insert_review now review ;;
      updateOfficialRating (InsertReview.officialId review) ;;
      rows <- query (fun d =>
                filter (fun j =>
                          ReviewRow.id (Review.row j) =? ReviewRow.id newReview)
                       (reviews_join_users_events d)) ;;
      ret (hd_error rows).

Definition reportReview (id : Z) : Promise unit :=
  execute (fun d =>
    with_reviews d
      (map (fun r =>
              if ReviewRow.id r =? id then ReviewRow.set_reported r else r)
           (reviews d))).

Definition deleteUser (userId : Z) : Promise unit :=
  execute (fun d =>
    with_reviews d
      (filter (fun r => negb (ReviewRow.userId r =? userId)) (reviews d))) ;;
  execute (fun d =>
    with_users d
      (filter (fun u => negb (User.id u =? userId)) (users d))).

Definition deleteEvent (id : Z) : Promise unit :=
  execute (fun d =>
    with_eventOfficials d
      (filter (fun a => negb (EventOfficial.eventId a =? id))
              (eventOfficials d))) ;;
  execute (fun d =>
    with_eventTeams d
      (filter (fun t => negb (EventTeam.eventId t =? id)) (eventTeams d))) ;;
  execute (fun d =>
    with_reviews d
      (filter (fun r => negb (ReviewRow.eventId r =? id)) (reviews d))) ;;
  execute (fun d =>
    with_events d
      (filter (fun e => negb (Event.id e =? id)) (events d))).

(** The storage client rejects a statement when the connection is lost
    or times out.  [fault id = Some e] says that a statement awaited
    while official [id] is recomputed rejects with [e].  Both queries of
    [updateOfficialRating] come before its only write, so a rejected
    call leaves the database as it found it. *)
Definition StorageFault : Type := Z -> option Error.

Definition no_fault : StorageFault := fun _ => None.

Definition updateOfficialRating_awaited (fault : StorageFault) (id : Z)
  : Promise unit :=
  match fault id with
  | Some e => throw e
  | None => updateOfficialRating id
  end.

Definition refreshAllOfficialRatings (fault : StorageFault) : Promise unit :=
  try_catch
    (page <- getOfficials_default ;;
     for_of (data page)
       (fun official =>
          updateOfficialRating_awaited fault (Official.id official)) ;;
     console_log "Completed refresh of all official ratings")
    (fun error =>
       console_error "Error refreshing all official ratings:" error ;;
       throw error).

Definition deleteReview (id : Z) : Promise unit :=
  rows <- query (fun d =>
            map ReviewRow.officialId
                (filter (fun r => ReviewRow.id r =? id) (reviews d))) ;;
  match rows with
  | [] => throw ReviewNotFoundError
  | officialId :: _ =>
      execute (fun d =>
        with_reviews d
          (filter (fun r => negb (ReviewRow.id r =? id)) (reviews d))) ;;
      updateOfficialRating officialId
  end.

(** [insertReviewSchema]: the six scores are numbers between 1 and 5
    ([z.number().min(1).max(5)]). *)
Definition score_in_range (x : Z) : bool := (1 <=? x) && (x <=? 5).

Definition insertReviewSchema_accepts (review : InsertReview.t) : bool :=
  score_in_range (InsertReview.mechanics review)
  && score_in_range (InsertReview.professionalism review)
  && score_in_range (InsertReview.positioning review)
  && score_in_range (InsertReview.stalling review)
  && score_in_range (InsertReview.consistency review)
  && score_in_range (InsertReview.appearance review).

(* ================================================================== *)
(** * Route handlers (server/routes.ts) *)
(* ================================================================== *)

(** The JSON body a handler sends. *)
Inductive ResponseBody : Type :=
| Message (message : string)
| CreatedReview (created : option Review.t).

Record Response : Type := mkResponse {
  status : Z;
  body : ResponseBody
}.

(** [const [user] = await ...where(eq(users.id, id))]. *)
Definition getUserById (id : Z) : Promise (option User.t) :=
  rows <- query (fun d => filter (fun u => User.id u =? id) (users d)) ;;
  ret (hd_error rows).

(** [app.delete("/api/admin/users/:id", isAuthenticated, isAdmin, ...)],
    past its two guards. *)
Definition DELETE_admin_users (userId : Z) : Promise Response :=
  try_catch
    (user <- getUserById userId ;;
     match user with
     | None => ret (mkResponse 404 (Message "User not found"))
     | Some _ =>
         deleteUser userId ;;
         ret (mkResponse 200 (Message "User deleted successfully"))
     end)
    (fun error =>
       console_error "Error deleting user:" error ;;
       ret (mkResponse 500 (Message error))).

(** [app.delete("/api/events/:id", isAuthenticated, ...)]; [privileged]
    says that the session user is an admin or a regional supervisor. *)
Definition DELETE_events (privileged : bool) (id : Z) : Promise Response :=
  try_catch
    (if negb privileged
     then ret (mkResponse 403
                 (Message
                    "Only Admins and Regional Supervisors can delete events"))
     else
       deleteEvent id ;;
       ret (mkResponse 200 (Message "Event deleted successfully")))
    (fun error =>
       console_error "Error deleting event:" error ;;
       ret (mkResponse 500 (Message "Failed to delete event"))).

(** [app.post("/api/officials/:id/reviews", isAuthenticated, ...)]: the
    body is parsed with [insertReviewSchema], a [ZodError] answering 400;
    [review] carries the official of the path and the user of the
    session. *)
Definition POST_officials_reviews (now : Z) (review : InsertReview.t)
  : Promise Response :=
  if negb (insertReviewSchema_accepts review)
  then ret (mkResponse 400 (Message "Invalid review data"))
  else
    try_catch
      (created <- createReview now review ;;
       ret (mkResponse 201 (CreatedReview created)))
      (fun e =>
         console_error "Review creation error:" e ;;
         ret (mkResponse 500 (Message e))).

(* ================================================================== *)
(** * class DatabaseStorage: events and assignments *)
(* ================================================================== *)

(** [const [event] = await ...where(eq(events.id, id))]. *)
Definition getEventById (id : Z) : Promise (option Event.t) :=
  rows <- query (fun d => filter (fun e => Event.id e =? id) (events d)) ;;
  ret (hd_error rows).

(** [.from(eventOfficials).innerJoin(officials,
     eq(eventOfficials.officialId, officials.id))]. *)
Definition eventOfficials_join_officials (d : Database)
  : list (EventOfficial.t * Official.t) :=
  flat_map (fun a =>
    map (fun o => (a, o))
        (filter (fun o => EventOfficial.officialId a =? Official.id o)
                (officials d)))
    (eventOfficials d).

(** [getEventOfficials]: the official columns of the join, for one
    event. *)
Definition getEventOfficials (eventId : Z) : Promise (list Official.t) :=
  query (fun d =>
    map snd
        (filter (fun p => EventOfficial.eventId (fst p) =? eventId)
                (eventOfficials_join_officials d))).

(** [.from(eventOfficials).innerJoin(events,
     eq(eventOfficials.eventId, events.id))]. *)
Definition eventOfficials_join_events (d : Database)
  : list (EventOfficial.t * Event.t) :=
  flat_map (fun a =>
    map (fun e => (a, e))
        (filter (fun e => EventOfficial.eventId a =? Event.id e) (events d)))
    (eventOfficials d).

(** [.orderBy(desc(events.date))], as a stable insertion sort. *)
Fixpoint insert_event_by_date_desc (x : Event.t) (l : list Event.t)
  : list Event.t :=
  match l with
  | [] => [x]
  | y :: l' =>
      if Event.date y <=? Event.date x
      then x :: l
      else y :: insert_event_by_date_desc x l'
  end.

Definition orderBy_event_date_desc (l : list Event.t) : list Event.t :=
  fold_right insert_event_by_date_desc [] l.

(** [getEventsForOfficial]: the event columns of the join, for one
    official, the most recent event first. *)
Definition getEventsForOfficial (officialId : Z) : Promise (list Event.t) :=
  query (fun d =>
    orderBy_event_date_desc
      (map snd
           (filter (fun p => EventOfficial.officialId (fst p) =? officialId)
                   (eventOfficials_join_events d)))).

(* ================================================================== *)
(** * class DatabaseStorage: settings and teams *)
(* ================================================================== *)

(** Row of table [settings]. *)
Module Setting.
Record t : Type := mk {
    id : Z;
    key : string;
    value : option string;
    updatedAt : Z
  }.
End Setting.

(** The table [settings] with its serial sequence.  No other method of
    the class reads or writes it, so it is kept apart from [Database]
    and its methods pass it explicitly. *)
Record SettingsTable : Type := mkSettingsTable {
  settings : list Setting.t;
  settings_id_seq : Z
}.

(** [getSetting]: [setting ? setting.value : null]. *)
Definition getSetting (key : string) (s : SettingsTable) : option string :=
  match filter (fun r => String.eqb (Setting.key r) key) (settings s) with
  | setting :: _ => Setting.value setting
  | [] => None
  end.

(** [updateSetting]: the table afterwards and the first row the
    statement returns; [now] is the reading of the clock. *)
Definition updateSetting (now : Z) (key value : string) (s : SettingsTable)
  : SettingsTable * option Setting.t :=
  let existingSetting :=
    filter (fun r => String.eqb (Setting.key r) key) (settings s) in
  if (0 <? length existingSetting)%nat
  then
    let rows :=
      map (fun r =>
             if String.eqb (Setting.key r) key
             then Setting.mk (Setting.id r) (Setting.key r) (Some value) now
             else r)
          (settings s) in
    (mkSettingsTable rows (settings_id_seq s),
     hd_error (filter (fun r => String.eqb (Setting.key r) key) rows))
  else
    let row := Setting.mk (settings_id_seq s + 1) key (Some value) now in
    (mkSettingsTable (settings s ++ [row]) (settings_id_seq s + 1),
     Some row).

(** Row of table [teams]. *)
Module Team.
Record t : Type := mk {
    id : Z;
    name : string;
    createdAt : Z
  }.
End Team.

(** The table [teams] with its serial sequence, kept apart from
    [Database] for the methods that touch no other table. *)
Record TeamsTable : Type := mkTeamsTable {
  teams : list Team.t;
  teams_id_seq : Z
}.

(** [const [team] = await ...where(eq(teams.id, id))]. *)
Definition getTeamById (id : Z) (t : TeamsTable) : option Team.t :=
  hd_error (filter (fun x => Team.id x =? id) (teams t)).

(** [createTeam]: the team with that name when there is one, a new row
    otherwise. *)
Definition createTeam (now : Z) (name : string) (t : TeamsTable)
  : TeamsTable * Team.t :=
  match filter (fun x => String.eqb (Team.name x) name) (teams t) with
  | existing :: _ => (t, existing)
  | [] =>
      let newTeam := Team.mk (teams_id_seq t + 1) name now in
      (mkTeamsTable (teams t ++ [newTeam]) (teams_id_seq t + 1), newTeam)
  end.

(* ================================================================== *)
(** * More route handlers (server/routes.ts) *)
(* ================================================================== *)

(** [req.user?.role === 'admin'] and
    [req.user?.userType === 'Regional Supervisor'], for the user of an
    authenticated session. *)
Definition isAdmin (user : User.t) : bool :=
  String.eqb (User.role user) "admin".

Definition isRegionalSupervisor (user : User.t) : bool :=
  String.eqb (User.userType user) "Regional Supervisor".

(** [app.delete("/api/reviews/:id", isAuthenticated, ...)] for the
    session user [user] and the parsed id. *)
Definition DELETE_reviews (user : User.t) (id : Z) : Promise Response :=
  try_catch
    (if negb (isAdmin user) && negb (isRegionalSupervisor user)
     then ret (mkResponse 403
                 (Message
                    "Only Admins and Regional Supervisors can delete reviews"))
     else
       deleteReview id ;;
       ret (mkResponse 200 (Message "Review deleted successfully")))
    (fun error =>
       console_error "Error deleting review:" error ;;
       ret (mkResponse 500 (Message error))).

(** [app.post("/api/reviews/:id/report", isAuthenticated, ...)]. *)
Definition POST_reviews_report (id : Z) : Promise Response :=
  reportReview id ;;
  ret (mkResponse 200 (Message "Review reported")).

(** [app.post("/api/admin/refresh-ratings", isAuthenticated, ...)]. *)
Definition POST_admin_refresh_ratings (fault : StorageFault) (user : User.t)
  : Promise Response :=
  try_catch
    (if negb (isAdmin user)
     then ret (mkResponse 403 (Message "Only Admins can refresh all ratings"))
     else
       console_log "Starting refresh of all official ratings" ;;
       refreshAllOfficialRatings fault ;;
       console_log "Completed refresh of all official ratings" ;;
       ret (mkResponse 200
              (Message
                 "All official ratings have been refreshed successfully")))
    (fun error =>
       console_error "Error refreshing official ratings:" error ;;
       ret (mkResponse 500 (Message "Failed to refresh official ratings"))).

(** The admin utility at the head of server/refresh-ratings.ts: the
    value is the code passed to [process.exit] in its [finally]. *)
Definition refresh_ratings_utility (fault : StorageFault) : Promise Z :=
  console_log "Starting admin utility to refresh all official ratings" ;;
  try_catch
    (refreshAllOfficialRatings fault ;;
     console_log "Successfully refreshed all official ratings")
    (fun error => console_error "Error refreshing official ratings:" error) ;;
  ret 0.

(* ================================================================== *)
(** * Specification vocabulary *)
(* ================================================================== *)

(** [r] is the integer nearest to [s / n], a tie going up:
    [s/n - 1/2 < r <= s/n + 1/2]. *)
Definition nearest_half_up (s n r : Z) : Prop :=
  2 * n * r - n <= 2 * s < 2 * n * r + n.

(** The sum of one category over a list of reviews. *)
Definition sum_scores (f : ReviewRow.t -> Z) (rs : list Review.t) : Z :=
  fold_right (fun j acc => f (Review.row j) + acc) 0 rs.

(** The aggregate [updateOfficialRating] writes for official [id]: the
    overall score and the number of valid reviews. *)
Definition fresh_rating (id : Z) (d : Database) : Z * Z :=
  (CategoryAverages.overall (category_averages_of (reviews_for_official id d)),
   Z.of_nat (length (reviews_for_official id d))).

(** [a] is listed before [b] when it is at least as recent. *)
Definition newer_first (a b : Review.t) : Prop :=
  ReviewRow.date (Review.row b) <= ReviewRow.date (Review.row a).

(** [g] applied to the review row of a joined review. *)
Definition on_row (g : ReviewRow.t -> ReviewRow.t) (j : Review.t)
  : Review.t :=
  Review.mk (g (Review.row j)) (Review.user j) (Review.event j).

(** What [reportReview id] does to one row. *)
Definition mark_reported (id : Z) (r : ReviewRow.t) : ReviewRow.t :=
  if ReviewRow.id r =? id then ReviewRow.set_reported r else r.

(** The six scores of a review row are between 1 and 5. *)
Definition review_scores_in_range (r : ReviewRow.t) : Prop :=
  1 <= ReviewRow.mechanics r <= 5 /\
  1 <= ReviewRow.professionalism r <= 5 /\
  1 <= ReviewRow.positioning r <= 5 /\
  1 <= ReviewRow.stalling r <= 5 /\
  1 <= ReviewRow.consistency r <= 5 /\
  1 <= ReviewRow.appearance r <= 5.

(** Every stored review has its scores between 1 and 5. *)
Definition reviews_in_range (d : Database) : Prop :=
  forall r, In r (reviews d) -> review_scores_in_range r.

(** The cached aggregate of every official is well formed: a rating
    between 0 and 5 and a count that is not negative. *)
Definition ratings_in_range (d : Database) : Prop :=
  forall o, In o (officials d) ->
    0 <= Official.averageRating o <= 5 /\ 0 <= Official.totalReviews o.

(** The invariant of the subsystem: scores and cached aggregates are in
    range. *)
Definition in_range (d : Database) : Prop :=
  reviews_in_range d /\ ratings_in_range d.

(** [m] keeps property [P] of the database, however it ends. *)
Definition preserves {A : Type} (P : Database -> Prop) (m : Promise A)
  : Prop :=
  forall d, P d -> P (db_after (m d)).

(** The officials [ids] recomputed one after the other. *)
Definition recompute_each (ids : list Z) (d : Database) : Database :=
  fold_left (fun d id => db_after (updateOfficialRating id d)) ids d.

(** The operations of the review ledger and of the rating aggregator,
    with the deletions that cascade into the reviews, at the storage
    layer and through the routes. *)
Inductive Operation : Type :=
| CreateOfficial (official : InsertOfficial.t)
| UpdateOfficialRating (id : Z)
| RefreshAllOfficialRatings (fault : StorageFault)
| CreateReview (now : Z) (review : InsertReview.t)
| DeleteReview (id : Z)
| ReportReview (id : Z)
| DeleteUser (userId : Z)
| DeleteEvent (id : Z)
| DeleteOfficial (id : Z)
| PostReview (now : Z) (review : InsertReview.t)
| DeleteUserRequest (userId : Z)
| DeleteEventRequest (privileged : bool) (id : Z).

(** The database an operation leaves behind, whether it returns or
    throws. *)
Definition perform (op : Operation) (d : Database) : Database :=
  match op with
  | CreateOfficial official => db_after (createOfficial official d)
  | UpdateOfficialRating id => db_after (updateOfficialRating id d)
  | RefreshAllOfficialRatings fault =>
      db_after (refreshAllOfficialRatings fault d)
  | CreateReview now review => db_after (createReview now review d)
  | DeleteReview id => db_after (deleteReview id d)
  | ReportReview id => db_after (reportReview id d)
  | DeleteUser userId => db_after (deleteUser userId d)
  | DeleteEvent id => db_after (deleteEvent id d)
  | DeleteOfficial id => db_after (deleteOfficial id d)
  | PostReview now review => db_after (POST_officials_reviews now review d)
  | DeleteUserRequest userId => db_after (DELETE_admin_users userId d)
  | DeleteEventRequest privileged id =>
      db_after (DELETE_events privileged id d)
  end.

(** The scores handed to the storage layer have passed
    [insertReviewSchema]; the route checks them itself. *)
Definition operation_validated (op : Operation) : Prop :=
  match op with
  | CreateReview _ review => insertReviewSchema_accepts review = true
  | _ => True
  end.

(* ================================================================== *)
(** * Sample data *)
(* ================================================================== *)

Definition sample_user (id : Z) : User.t :=
  User.mk id "coach@example.org" "Casey" "Coach" "user" "Coach" None.

Definition sample_event (id : Z) : Event.t :=
  Event.mk id "Regional Duals" 1700000000000 "Main Gym" "Dual" "Central High".

Definition sample_official (id avg total : Z) : Official.t :=
  Official.mk id "Robin" "Referee" 40 "Springfield" "State Association" 12
              None avg total.

(** A review row with the six scores [m p po s c a]. *)
Definition sample_review (id officialId userId eventId m p po s c a : Z)
  : ReviewRow.t :=
  ReviewRow.mk id officialId userId eventId m p po s c a "" 1700000100000
               false false.

Definition sample_insert (officialId userId eventId score : Z)
  : InsertReview.t :=
  InsertReview.mk officialId eventId score score score score score score
                  None false userId.

(** Two officials with a stale cache; official 2 has one review. *)
Definition db_two_officials : Database :=
  mkDatabase [sample_user 1] [sample_official 1 0 0; sample_official 2 0 0]
             [sample_event 1] [EventOfficial.mk 1 1 2 None] []
             [sample_review 1 2 1 1 5 5 5 5 5 5] 2 1.

(** One official with no review left and a stale cache. *)
Definition db_unreviewed : Database :=
  mkDatabase [sample_user 1] [sample_official 1 4 3] [sample_event 1]
             [EventOfficial.mk 1 1 1 None] [] [] 1 0.

(** One official with one review by user 1 at event 1, and an
    up-to-date cache. *)
Definition db_one_review : Database :=
  mkDatabase [sample_user 1] [sample_official 1 5 1] [sample_event 1]
             [EventOfficial.mk 1 1 1 None] []
             [sample_review 1 1 1 1 5 5 5 5 5 5] 1 1.

(** One official with the review scores 4,4,4,4,4,5. *)
Definition db_four_and_five : Database :=
  mkDatabase [sample_user 1] [sample_official 1 0 0] [sample_event 1]
             [EventOfficial.mk 1 1 1 None] []
             [sample_review 1 1 1 1 4 4 4 4 4 5] 1 1.

(** One official with two reviews, by users 1 and 2: three categories
    average 4.5 and three average 4. *)
Definition db_two_reviews : Database :=
  mkDatabase [sample_user 1; sample_user 2] [sample_official 1 5 2]
             [sample_event 1] [EventOfficial.mk 1 1 1 None] []
             [sample_review 1 1 1 1 4 4 4 4 4 4;
              sample_review 2 1 2 1 5 5 5 4 4 4] 1 2.

(** User 1 has reviewed official 1 at event 1, to which the official
    is no longer assigned. *)
Definition db_unassigned : Database :=
  mkDatabase [sample_user 1] [sample_official 1 5 1] [sample_event 1] [] []
             [sample_review 1 1 1 1 5 5 5 5 5 5] 1 1.

(** Twenty-one officials without reviews, each with a stale cache. *)
Definition db_21_officials : Database :=
  mkDatabase [] (map (fun id => sample_official id 4 3)
                     [1; 2; 3; 4; 5; 6; 7; 8; 9; 10; 11; 12; 13; 14; 15; 16;
                      17; 18; 19; 20; 21])
             [] [] [] [] 21 0.

(** The storage client fails while official 1 is recomputed. *)
Definition fault_on_1 : StorageFault :=
  fun id => if id =? 1 then Some "Connection terminated unexpectedly" else None.

(* ================================================================== *)
(** * Vocabulary of the further properties *)
(* ================================================================== *)

(** The cached aggregate of every official is the one a recompute would
    store. *)
Definition cache_consistent (d : Database) : Prop :=
  forall o, In o (officials d) ->
    (Official.averageRating o, Official.totalReviews o)
    = fresh_rating (Official.id o) d.

(** The ids of the reviews are distinct and were handed out by the
    sequence. *)
Definition reviews_keyed (d : Database) : Prop :=
  NoDup (map ReviewRow.id (reviews d)) /\
  (forall r, In r (reviews d) -> ReviewRow.id r <= reviews_id_seq d).

(** The ids of the officials are distinct and were handed out by the
    sequence. *)
Definition officials_keyed (d : Database) : Prop :=
  NoDup (map Official.id (officials d)) /\
  (forall o, In o (officials d) -> Official.id o <= officials_id_seq d).




(** Every review of [d] is a review of [d0], as it was or with the
    report flag set. *)
Definition reviews_from (d0 d : Database) : Prop :=
  forall r', In r' (reviews d) ->
    exists r, In r (reviews d0) /\ (r' = r \/ r' = ReviewRow.set_reported r).

(** [r'] is the row the operation inserts into [d]. *)
Definition submitted_by (op : Operation) (d : Database) (r' : ReviewRow.t)
  : Prop :=
  match op with
  | CreateReview now review =>
      r' = new_review_row (reviews_id_seq d + 1) now review
  | PostReview now review =>
      r' = new_review_row (reviews_id_seq d + 1) now review
  | _ => False
  end.

(** The keys of the settings are distinct. *)
Definition setting_keys_unique (s : SettingsTable) : Prop :=
  NoDup (map Setting.key (settings s)).

(** The names of the teams are distinct, and their ids are distinct and
    were handed out by the sequence. *)
Definition teams_keyed (t : TeamsTable) : Prop :=
  NoDup (map Team.name (teams t)) /\
  NoDup (map Team.id (teams t)) /\
  (forall x, In x (teams t) -> Team.id x <= teams_id_seq t).

(** [a] is listed before [b] when its date is at least as recent. *)
Definition newer_event_first (a b : Event.t) : Prop :=
  Event.date b <= Event.date a.

(** An administrator, a regional supervisor and a coach. *)
Definition sample_admin : User.t :=
  User.mk 10 "admin@example.org" "Ada" "Admin" "admin" "Coach" None.

Definition sample_supervisor : User.t :=
  User.mk 11 "super@example.org" "Sam" "Supervisor" "user"
          "Regional Supervisor" None.

Definition sample_coach : User.t := sample_user 1.

Definition settings_empty : SettingsTable := mkSettingsTable [] 0.

Definition teams_empty : TeamsTable := mkTeamsTable [] 0.

Unset Implicit Arguments.

(* ================================================================== *)
(** * Running computations *)
(* ================================================================== *)

(** A silent first step that returns hands its value and its database
    to the rest. *)
Lemma bind_returned {A B : Type} (m : Promise A) (k : A -> Promise B)
      (d : Database) (a : A) :
  outcome (m d) = Returned a -> console (m d) = [] ->
  bind m k d = k a (db_after (m d)).
Proof.
  intros Ho Hc. unfold bind. rewrite Ho, Hc. simpl.
  now destruct (k a (db_after (m d))).
Qed.

(* ================================================================== *)
(** * Rounding *)
(* ================================================================== *)

Lemma Math_round_js_div (s n : Z) :
  0 < n -> Math_round (js_div s n) = (2 * s + n) / (2 * n).
Proof.
  intros Hn. destruct n as [|p|p]; try lia.
  unfold Math_round, js_div, Qdiv, Qinv, Qmult, Qplus, Qfloor.
  cbn [Qnum Qden inject_Z]. rewrite ?Pos2Z.inj_mul.
  f_equal; lia.
Qed.

Lemma Math_round_nearest (s n : Z) :
  0 < n -> nearest_half_up s n (Math_round (js_div s n)).
Proof.
  intros Hn. rewrite Math_round_js_div by assumption.
  unfold nearest_half_up.
  pose proof (Z.mul_div_le (2 * s + n) (2 * n) ltac:(lia)).
  pose proof (Z.mul_succ_div_gt (2 * s + n) (2 * n) ltac:(lia)).
  lia.
Qed.

Lemma nearest_half_up_unique (s n r r' : Z) :
  0 < n -> nearest_half_up s n r -> nearest_half_up s n r' -> r = r'.
Proof. unfold nearest_half_up. intros. nia. Qed.

Lemma Math_round_bounds (s n lo hi : Z) :
  0 < n -> lo * n <= s <= hi * n -> lo <= Math_round (js_div s n) <= hi.
Proof.
  intros Hn Hs. pose proof (Math_round_nearest s n Hn) as H.
  unfold nearest_half_up in H. nia.
Qed.

(* ================================================================== *)
(** * The valid reviews of an official *)
(* ================================================================== *)

Lemma insert_by_date_desc_perm (x : Review.t) (l : list Review.t) :
  Permutation (insert_by_date_desc x l) (x :: l).
Proof.
  induction l as [|y l IH]; simpl.
  - apply Permutation_refl.
  - destruct (ReviewRow.date (Review.row y) <=? ReviewRow.date (Review.row x)).
    + apply Permutation_refl.
    + apply perm_trans with (y :: x :: l).
      * now apply perm_skip.
      * apply perm_swap.
Qed.

Lemma orderBy_date_desc_perm (l : list Review.t) :
  Permutation (orderBy_date_desc l) l.
Proof.
  induction l as [|x l IH]; simpl.
  - apply perm_nil.
  - eapply perm_trans; [apply insert_by_date_desc_perm|].
    now apply perm_skip.
Qed.

(** A joined review is valid for official [id] when its review row, its
    user row and its event row all exist. *)
Lemma reviews_for_official_In (j : Review.t) (id : Z) (d : Database) :
  In j (reviews_for_official id d) <->
  exists r u e,
    In r (reviews d) /\ In u (users d) /\ In e (events d) /\
    ReviewRow.officialId r = id /\
    ReviewRow.userId r = User.id u /\
    ReviewRow.eventId r = Event.id e /\
    j = review_with_details r u e.
Proof.
  unfold reviews_for_official, reviews_join_users_events. split.
  - intros H.
    apply (Permutation_in _ (orderBy_date_desc_perm _)) in H.
    apply filter_In in H. destruct H as [H Hid].
    apply in_flat_map in H. destruct H as [r [Hr H]].
    apply in_flat_map in H. destruct H as [u [Hu H]].
    apply in_map_iff in H. destruct H as [e [Hj He]].
    apply filter_In in Hu. destruct Hu as [Hu Huid].
    apply filter_In in He. destruct He as [He Heid].
    exists r, u, e. subst j. simpl in Hid.
    repeat split; auto; now apply Z.eqb_eq.
  - intros [r [u [e [Hr [Hu [He [Hid [Huid [Heid Hj]]]]]]]]].
    apply (Permutation_in _ (Permutation_sym (orderBy_date_desc_perm _))).
    apply filter_In. split.
    + apply in_flat_map. exists r. split; [assumption|].
      apply in_flat_map. exists u. split.
      * apply filter_In. split; [assumption|now apply Z.eqb_eq].
      * apply in_map_iff. exists e. split; [now symmetry|].
        apply filter_In. split; [assumption|now apply Z.eqb_eq].
    + subst j. simpl. now apply Z.eqb_eq.
Qed.

(** The review row of a valid review is a row of the table. *)
Lemma reviews_for_official_row (j : Review.t) (id : Z) (d : Database) :
  In j (reviews_for_official id d) -> In (Review.row j) (reviews d).
Proof.
  intros H. apply reviews_for_official_In in H.
  destruct H as [r [u [e [Hr [_ [_ [_ [_ [_ Hj]]]]]]]]]. now subst j.
Qed.

(** The valid reviews depend on the tables [reviews], [users] and
    [events] only. *)
Lemma reviews_for_official_ext (id : Z) (d d' : Database) :
  reviews d' = reviews d -> users d' = users d -> events d' = events d ->
  reviews_for_official id d' = reviews_for_official id d.
Proof.
  intros Hr Hu He.
  unfold reviews_for_official, reviews_join_users_events.
  now rewrite Hr, Hu, He.
Qed.

(* ================================================================== *)
(** * Sums and averages *)
(* ================================================================== *)

Lemma fold_add_review (rs : list Review.t) (acc : Sums.t) :
  fold_left add_review rs acc =
  Sums.mk (Sums.mechanics acc + sum_scores ReviewRow.mechanics rs)
          (Sums.professionalism acc + sum_scores ReviewRow.professionalism rs)
          (Sums.positioning acc + sum_scores ReviewRow.positioning rs)
          (Sums.stalling acc + sum_scores ReviewRow.stalling rs)
          (Sums.consistency acc + sum_scores ReviewRow.consistency rs)
          (Sums.appearance acc + sum_scores ReviewRow.appearance rs).
Proof.
  revert acc. induction rs as [|j rs IH]; intros [a b c e f g]; simpl.
  - f_equal; lia.
  - rewrite IH. unfold add_review. simpl. f_equal; lia.
Qed.

Lemma sum_scores_perm (f : ReviewRow.t -> Z) (l l' : list Review.t) :
  Permutation l l' -> sum_scores f l = sum_scores f l'.
Proof.
  induction 1; simpl; lia.
Qed.

Lemma sum_scores_bounds (f : ReviewRow.t -> Z) (lo hi : Z)
      (rs : list Review.t) :
  (forall j, In j rs -> lo <= f (Review.row j) <= hi) ->
  lo * Z.of_nat (length rs) <= sum_scores f rs <= hi * Z.of_nat (length rs).
Proof.
  induction rs as [|j rs IH]; intros H.
  - simpl. lia.
  - assert (Hj : lo <= f (Review.row j) <= hi) by (apply H; now left).
    assert (IH' := IH (fun k Hk => H k (or_intror Hk))).
    change (sum_scores f (j :: rs)) with (f (Review.row j) + sum_scores f rs).
    change (length (j :: rs)) with (S (length rs)).
    rewrite Nat2Z.inj_succ. lia.
Qed.

(** The averages of a non-empty list of reviews, with the reduction
    replaced by the six sums. *)
Lemma category_averages_of_nonempty (rs : list Review.t) :
  rs <> [] ->
  let n := Z.of_nat (length rs) in
  let avg f := Math_round (js_div (sum_scores f rs) n) in
  category_averages_of rs =
  CategoryAverages.mk
    (avg ReviewRow.mechanics) (avg ReviewRow.professionalism)
    (avg ReviewRow.positioning) (avg ReviewRow.stalling)
    (avg ReviewRow.consistency) (avg ReviewRow.appearance)
    (Math_round
       (js_div (avg ReviewRow.mechanics + avg ReviewRow.professionalism
                + avg ReviewRow.positioning + avg ReviewRow.stalling
                + avg ReviewRow.consistency + avg ReviewRow.appearance) 6)).
Proof.
  intros Hne. unfold category_averages_of.
  destruct rs as [|j rs]; [congruence|].
  change (length (j :: rs) =? 0)%nat with false. cbv iota.
  rewrite fold_add_review. reflexivity.
Qed.

Lemma category_averages_of_nil :
  category_averages_of [] = CategoryAverages.mk 0 0 0 0 0 0 0.
Proof. reflexivity. Qed.

(** The averages do not depend on the order in which the reviews are
    fetched. *)
Lemma category_averages_of_perm (l l' : list Review.t) :
  Permutation l l' -> category_averages_of l = category_averages_of l'.
Proof.
  intros Hp. destruct l as [|j l].
  - apply Permutation_nil in Hp. now subst l'.
  - assert (Hne' : l' <> []).
    { intros ->. apply Permutation_sym, Permutation_nil in Hp. discriminate. }
    rewrite (category_averages_of_nonempty (j :: l)) by discriminate.
    rewrite (category_averages_of_nonempty l' Hne'). cbv zeta.
    rewrite <- (Permutation_length Hp).
    now rewrite !(fun f => sum_scores_perm f (j :: l) l' Hp).
Qed.

(* ================================================================== *)
(** * Recomputing one official *)
(* ================================================================== *)

Lemma calculateCategoryAverages_run (id : Z) (d : Database) :
  calculateCategoryAverages id d =
  mkRun d [] (Returned (category_averages_of (reviews_for_official id d))).
Proof. reflexivity. Qed.

Lemma updateOfficialRating_run (id : Z) (d : Database) :
  updateOfficialRating id d =
  mkRun
    (with_officials d
       (map (fun o =>
               if Official.id o =? id
               then Official.set_rating o (fst (fresh_rating id d))
                                        (snd (fresh_rating id d))
               else o)
            (officials d)))
    [] (Returned tt).
Proof. reflexivity. Qed.

Lemma updateOfficialRating_reviews (id : Z) (d : Database) :
  reviews (db_after (updateOfficialRating id d)) = reviews d /\
  users (db_after (updateOfficialRating id d)) = users d /\
  events (db_after (updateOfficialRating id d)) = events d /\
  eventOfficials (db_after (updateOfficialRating id d)) = eventOfficials d.
Proof. repeat split. Qed.

Lemma fresh_rating_after_update (id id' : Z) (d : Database) :
  fresh_rating id (db_after (updateOfficialRating id' d)) = fresh_rating id d.
Proof.
  unfold fresh_rating.
  rewrite (@reviews_for_official_ext id d
             (db_after (updateOfficialRating id' d))); reflexivity.
Qed.

Lemma getOfficialById_run (id : Z) (d : Database) :
  getOfficialById id d =
  mkRun d []
    (Returned (hd_error (filter (fun o => Official.id o =? id) (officials d)))).
Proof. reflexivity. Qed.

(** What [getOfficialById] finds after a recompute of the same
    official: the row it found before, with the fresh aggregate. *)
Lemma getOfficialById_after_update (id : Z) (d : Database) (o : Official.t) :
  outcome (getOfficialById id d) = Returned (Some o) ->
  outcome (getOfficialById id (db_after (updateOfficialRating id d))) =
  Returned (Some (Official.set_rating o (fst (fresh_rating id d))
                                      (snd (fresh_rating id d)))).
Proof.
  rewrite updateOfficialRating_run, !getOfficialById_run. simpl.
  generalize (fst (fresh_rating id d)), (snd (fresh_rating id d)).
  intros a n H. injection H as H. f_equal. revert H.
  induction (officials d) as [|x l IH]; simpl; [discriminate|].
  destruct (Official.id x =? id) eqn:E; simpl.
  - rewrite E. simpl. now intros [= ->].
  - rewrite E. exact IH.
Qed.

(** Every row [updateOfficialRating] leaves with the id it was called
    with carries the fresh aggregate. *)
Lemma updateOfficialRating_rated (id : Z) (d : Database) (o : Official.t) :
  In o (officials (db_after (updateOfficialRating id d))) ->
  Official.id o = id ->
  Official.averageRating o = fst (fresh_rating id d) /\
  Official.totalReviews o = snd (fresh_rating id d).
Proof.
  rewrite updateOfficialRating_run. simpl. intros H Hid.
  apply in_map_iff in H. destruct H as [x [Hx _]].
  destruct (Official.id x =? id) eqn:E.
  - subst o. now simpl.
  - subst x. apply Z.eqb_neq in E. contradiction.
Qed.

(** The rows with another id are the rows that were there before. *)
Lemma updateOfficialRating_others (id : Z) (d : Database) (o : Official.t) :
  Official.id o <> id ->
  (In o (officials (db_after (updateOfficialRating id d))) <->
   In o (officials d)).
Proof.
  rewrite updateOfficialRating_run. simpl. intros Hid. split.
  - intros H. apply in_map_iff in H. destruct H as [x [Hx Hin]].
    destruct (Official.id x =? id) eqn:E.
    + subst o. simpl in Hid. apply Z.eqb_eq in E. contradiction.
    + now subst x.
  - intros H. apply in_map_iff. exists o. split; [|assumption].
    apply Z.eqb_neq in Hid. now rewrite Hid.
Qed.

(** C6. For an official whose set of valid reviews is empty, the six
    category averages and the overall score computed by the recompute
    are 0, and the recompute stores [averageRating = 0] and
    [totalReviews = 0] on the official's row. *)
Theorem zero_reviews_zero_rating (id : Z) (d : Database) :
  reviews_for_official id d = [] ->
  outcome (calculateCategoryAverages id d) =
    Returned (CategoryAverages.mk 0 0 0 0 0 0 0) /\
  outcome (updateOfficialRating id d) = Returned tt /\
  (forall o, outcome (getOfficialById id d) = Returned (Some o) ->
     outcome (getOfficialById id (db_after (updateOfficialRating id d))) =
       Returned (Some (Official.set_rating o 0 0))) /\
  (forall o, In o (officials (db_after (updateOfficialRating id d))) ->
     Official.id o = id ->
     Official.averageRating o = 0 /\ Official.totalReviews o = 0).
Proof.
  intros Hnil.
  assert (Hfresh : fresh_rating id d = (0, 0)).
  { unfold fresh_rating. now rewrite Hnil. }
  split; [|split; [|split]].
  - rewrite calculateCategoryAverages_run, Hnil. reflexivity.
  - reflexivity.
  - intros o Ho. apply getOfficialById_after_update in Ho.
    now rewrite Hfresh in Ho.
  - intros o Ho Hid.
    destruct (updateOfficialRating_rated id d o Ho Hid) as [Ha Ht].
    now rewrite Hfresh in Ha, Ht.
Qed.

Lemma zero_reviews_zero_rating_witness :
  reviews_for_official 1 db_unreviewed = [] /\
  outcome (getOfficialById 1
             (db_after (updateOfficialRating 1 db_unreviewed))) =
    Returned (Some (sample_official 1 0 0)).
Proof.
  split; [reflexivity|].
  exact (proj1 (proj2 (proj2
           (zero_reviews_zero_rating 1 db_unreviewed eq_refl)))
           (sample_official 1 4 3) eq_refl).
Defined.

(** A second recompute of the same official changes nothing. *)
Lemma updateOfficialRating_twice (id : Z) (d : Database) :
  db_after (updateOfficialRating id (db_after (updateOfficialRating id d))) =
  db_after (updateOfficialRating id d).
Proof.
  rewrite (updateOfficialRating_run id (db_after _)).
  rewrite fresh_rating_after_update.
  rewrite updateOfficialRating_run. simpl.
  unfold with_officials. simpl. f_equal.
  rewrite map_map. apply map_ext. intros o.
  destruct (Official.id o =? id) eqn:E; simpl; rewrite E; reflexivity.
Qed.

(** C7. The recompute of one official is idempotent: run twice in a
    row, with nothing written in between, both runs return and the
    second leaves the database, and so the stored [averageRating] and
    [totalReviews] of every official, as the first left it. *)
Theorem updateOfficialRating_idempotent (id : Z) (d : Database) :
  let first := updateOfficialRating id d in
  let second := updateOfficialRating id (db_after first) in
  outcome first = Returned tt /\
  outcome second = Returned tt /\
  db_after second = db_after first /\
  map (fun o => (Official.id o, Official.averageRating o,
                 Official.totalReviews o)) (officials (db_after second)) =
  map (fun o => (Official.id o, Official.averageRating o,
                 Official.totalReviews o)) (officials (db_after first)).
Proof.
  intros first second.
  assert (Hdb : db_after second = db_after first).
  { subst first second. apply updateOfficialRating_twice. }
  repeat split; try reflexivity; try assumption.
  now rewrite Hdb.
Qed.

(** The number of valid reviews is positive as soon as there is one. *)
Lemma length_pos_of_In {A : Type} (x : A) (l : list A) :
  In x l -> 0 < Z.of_nat (length l).
Proof. destruct l; simpl; [contradiction|lia]. Qed.

(** C3. For an official with a review whose user row and event row
    exist, the valid reviews are exactly the review rows of that official
    joined to an existing user and an existing event; each of the six
    category averages is the sum of that category over the valid reviews
    divided by their number, rounded to the nearest integer with a tie
    going up; the overall score is the mean of the six rounded averages,
    rounded the same way, so that the averages 4,4,4,4,4,5 give 4; and
    the recompute stores that overall score as [averageRating]. *)
Theorem category_averages_two_stage
        (id : Z) (d : Database) (r : ReviewRow.t) (u : User.t) (e : Event.t) :
  In r (reviews d) -> In u (users d) -> In e (events d) ->
  ReviewRow.officialId r = id ->
  ReviewRow.userId r = User.id u ->
  ReviewRow.eventId r = Event.id e ->
  let rs := reviews_for_official id d in
  let n := Z.of_nat (length rs) in
  exists avg,
    outcome (calculateCategoryAverages id d) = Returned avg /\
    (forall j, In j rs <->
       exists r' u' e',
         In r' (reviews d) /\ In u' (users d) /\ In e' (events d) /\
         ReviewRow.officialId r' = id /\
         ReviewRow.userId r' = User.id u' /\
         ReviewRow.eventId r' = Event.id e' /\
         j = review_with_details r' u' e') /\
    nearest_half_up (sum_scores ReviewRow.mechanics rs) n
                    (CategoryAverages.mechanics avg) /\
    nearest_half_up (sum_scores ReviewRow.professionalism rs) n
                    (CategoryAverages.professionalism avg) /\
    nearest_half_up (sum_scores ReviewRow.positioning rs) n
                    (CategoryAverages.positioning avg) /\
    nearest_half_up (sum_scores ReviewRow.stalling rs) n
                    (CategoryAverages.stalling avg) /\
    nearest_half_up (sum_scores ReviewRow.consistency rs) n
                    (CategoryAverages.consistency avg) /\
    nearest_half_up (sum_scores ReviewRow.appearance rs) n
                    (CategoryAverages.appearance avg) /\
    nearest_half_up
      (CategoryAverages.mechanics avg + CategoryAverages.professionalism avg
       + CategoryAverages.positioning avg + CategoryAverages.stalling avg
       + CategoryAverages.consistency avg + CategoryAverages.appearance avg)
      6 (CategoryAverages.overall avg) /\
    (CategoryAverages.mechanics avg = 4 ->
     CategoryAverages.professionalism avg = 4 ->
     CategoryAverages.positioning avg = 4 ->
     CategoryAverages.stalling avg = 4 ->
     CategoryAverages.consistency avg = 4 ->
     CategoryAverages.appearance avg = 5 ->
     CategoryAverages.overall avg = 4) /\
    (forall o, outcome (getOfficialById id d) = Returned (Some o) ->
       outcome (getOfficialById id (db_after (updateOfficialRating id d))) =
         Returned (Some (Official.set_rating o (CategoryAverages.overall avg)
                                             n))) /\
    (forall o, In o (officials (db_after (updateOfficialRating id d))) ->
       Official.id o = id ->
       Official.averageRating o = CategoryAverages.overall avg /\
       Official.totalReviews o = n).
Proof.
  intros Hr Hu He Hid Huid Heid rs n.
  assert (Hin : In (review_with_details r u e) rs).
  { apply reviews_for_official_In. exists r, u, e. repeat split; auto. }
  assert (Hn : 0 < n) by (eapply length_pos_of_In; exact Hin).
  assert (Hne : rs <> []) by (intros E; rewrite E in Hin; exact Hin).
  pose proof (category_averages_of_nonempty rs Hne) as Havg.
  cbv zeta in Havg. fold n in Havg.
  exists (category_averages_of rs).
  split; [reflexivity|].
  split; [intros j; apply reviews_for_official_In|].
  assert (P1 := getOfficialById_after_update id d).
  assert (P2 := updateOfficialRating_rated id d).
  unfold fresh_rating in P1, P2. cbn [fst snd] in P1, P2.
  fold rs in P1, P2. fold n in P1, P2.
  rewrite Havg in *.
  cbn [CategoryAverages.mechanics CategoryAverages.professionalism
    CategoryAverages.positioning CategoryAverages.stalling
    CategoryAverages.consistency CategoryAverages.appearance
    CategoryAverages.overall] in *.
  do 6 (split; [now apply Math_round_nearest|]).
  split; [apply Math_round_nearest; lia|].
  split.
  { intros -> -> -> -> -> ->. reflexivity. }
  split; assumption.
Qed.

Lemma category_averages_two_stage_witness :
  outcome (calculateCategoryAverages 1 db_four_and_five) =
    Returned (CategoryAverages.mk 4 4 4 4 4 5 4) /\
  exists avg,
    outcome (calculateCategoryAverages 1 db_four_and_five) = Returned avg /\
    forall o,
      In o (officials (db_after (updateOfficialRating 1 db_four_and_five))) ->
      Official.id o = 1 ->
      Official.averageRating o = CategoryAverages.overall avg /\
      Official.totalReviews o = 1.
Proof.
  split; [reflexivity|].
  destruct (category_averages_two_stage 1 db_four_and_five
              (sample_review 1 1 1 1 4 4 4 4 4 5) (sample_user 1)
              (sample_event 1))
    as [avg H]; try (simpl; tauto); try reflexivity.
  exists avg. split; [apply H|].
  apply (proj2 (proj2 (proj2 (proj2 (proj2 (proj2 (proj2 (proj2 (proj2
          (proj2 (proj2 H))))))))))).
Defined.

(** The two-stage rounding is not the rounding of the mean of the raw
    scores: with the reviews 4,4,4,4,4,4 and 5,5,5,4,4,4 the rounded
    category averages are 5,5,5,4,4,4 and the overall score is 5, while
    the mean of the twelve raw scores, 51/12, rounds to 4. *)
Example two_stage_differs_from_grand_mean :
  let rs := reviews_for_official 1 db_two_reviews in
  category_averages_of rs = CategoryAverages.mk 5 5 5 4 4 4 5 /\
  Math_round
    (js_div (sum_scores ReviewRow.mechanics rs
             + sum_scores ReviewRow.professionalism rs
             + sum_scores ReviewRow.positioning rs
             + sum_scores ReviewRow.stalling rs
             + sum_scores ReviewRow.consistency rs
             + sum_scores ReviewRow.appearance rs)
            (6 * Z.of_nat (length rs))) = 4.
Proof. split; reflexivity. Qed.

(** With scores between 1 and 5, the averages of a non-empty list of
    reviews are between 1 and 5, and so is the overall score. *)
Lemma category_averages_of_range (rs : list Review.t) :
  (forall j, In j rs -> review_scores_in_range (Review.row j)) ->
  rs <> [] ->
  let avg := category_averages_of rs in
  1 <= CategoryAverages.mechanics avg <= 5 /\
  1 <= CategoryAverages.professionalism avg <= 5 /\
  1 <= CategoryAverages.positioning avg <= 5 /\
  1 <= CategoryAverages.stalling avg <= 5 /\
  1 <= CategoryAverages.consistency avg <= 5 /\
  1 <= CategoryAverages.appearance avg <= 5 /\
  1 <= CategoryAverages.overall avg <= 5.
Proof.
  intros Hrange Hne avg. subst avg.
  rewrite (category_averages_of_nonempty rs Hne). cbv zeta.
  cbn [CategoryAverages.mechanics CategoryAverages.professionalism
    CategoryAverages.positioning CategoryAverages.stalling
    CategoryAverages.consistency CategoryAverages.appearance
    CategoryAverages.overall].
  assert (Hn : 0 < Z.of_nat (length rs)).
  { destruct rs; [congruence|]. simpl. lia. }
  assert (Hcat : forall f,
             (forall j, In j rs -> 1 <= f (Review.row j) <= 5) ->
             1 <= Math_round (js_div (sum_scores f rs) (Z.of_nat (length rs)))
               <= 5).
  { intros f Hf. apply Math_round_bounds; [assumption|].
    apply sum_scores_bounds. exact Hf. }
  assert (H1 := Hcat ReviewRow.mechanics (fun j Hj => proj1 (Hrange j Hj))).
  assert (H2 := Hcat ReviewRow.professionalism
                  (fun j Hj => proj1 (proj2 (Hrange j Hj)))).
  assert (H3 := Hcat ReviewRow.positioning
                  (fun j Hj => proj1 (proj2 (proj2 (Hrange j Hj))))).
  assert (H4 := Hcat ReviewRow.stalling
                  (fun j Hj => proj1 (proj2 (proj2 (proj2 (Hrange j Hj)))))).
  assert (H5 := Hcat ReviewRow.consistency
                  (fun j Hj =>
                     proj1 (proj2 (proj2 (proj2 (proj2 (Hrange j Hj))))))).
  assert (H6 := Hcat ReviewRow.appearance
                  (fun j Hj =>
                     proj2 (proj2 (proj2 (proj2 (proj2 (Hrange j Hj))))))).
  repeat (split; [assumption|]).
  apply Math_round_bounds; lia.
Qed.

(** With scores between 1 and 5 the overall score is between 0 and 5,
    and it is 0 for the empty list only. *)
Lemma overall_range (rs : list Review.t) :
  (forall j, In j rs -> review_scores_in_range (Review.row j)) ->
  0 <= CategoryAverages.overall (category_averages_of rs) <= 5 /\
  (CategoryAverages.overall (category_averages_of rs) = 0 <-> rs = []).
Proof.
  intros Hrange. destruct rs as [|j rs].
  - rewrite category_averages_of_nil. simpl. split; [lia|tauto].
  - assert (Hne : j :: rs <> []) by congruence.
    pose proof (category_averages_of_range (j :: rs) Hrange Hne) as H.
    cbv zeta in H.
    destruct H as [_ [_ [_ [_ [_ [_ H]]]]]].
    split; [lia|]. split; [lia|congruence].
Qed.

(** C10. When the valid reviews of an official all have their six
    scores between 1 and 5 and there is at least one, every rounded
    category average, the overall score and the stored [averageRating]
    are between 1 and 5; so a recompute stores [averageRating = 0]
    exactly when the official has no valid review. *)
Theorem rating_zero_iff_unreviewed (id : Z) (d : Database) :
  (forall j, In j (reviews_for_official id d) ->
             review_scores_in_range (Review.row j)) ->
  let rs := reviews_for_official id d in
  let avg := category_averages_of rs in
  (rs <> [] ->
   1 <= CategoryAverages.mechanics avg <= 5 /\
   1 <= CategoryAverages.professionalism avg <= 5 /\
   1 <= CategoryAverages.positioning avg <= 5 /\
   1 <= CategoryAverages.stalling avg <= 5 /\
   1 <= CategoryAverages.consistency avg <= 5 /\
   1 <= CategoryAverages.appearance avg <= 5 /\
   1 <= CategoryAverages.overall avg <= 5 /\
   forall o, In o (officials (db_after (updateOfficialRating id d))) ->
             Official.id o = id -> 1 <= Official.averageRating o <= 5) /\
  outcome (calculateCategoryAverages id d) = Returned avg /\
  (forall o, In o (officials (db_after (updateOfficialRating id d))) ->
             Official.id o = id ->
             (Official.averageRating o = 0 <-> rs = [])).
Proof.
  intros Hrange rs avg.
  assert (Hstored :
            forall o, In o (officials (db_after (updateOfficialRating id d))) ->
                      Official.id o = id ->
                      Official.averageRating o = CategoryAverages.overall avg).
  { intros o Ho Hid. exact (proj1 (updateOfficialRating_rated id d o Ho Hid)). }
  split; [|split].
  - intros Hne.
    pose proof (category_averages_of_range rs Hrange Hne) as H.
    cbv zeta in H. fold avg in H.
    destruct H as [H1 [H2 [H3 [H4 [H5 [H6 H7]]]]]].
    repeat (split; [assumption|]).
    intros o Ho Hid. now rewrite (Hstored o Ho Hid).
  - reflexivity.
  - intros o Ho Hid. rewrite (Hstored o Ho Hid).
    exact (proj2 (overall_range rs Hrange)).
Qed.

Lemma rating_zero_iff_unreviewed_witness :
  (forall j, In j (reviews_for_official 1 db_two_reviews) ->
             review_scores_in_range (Review.row j)) /\
  forall o,
    In o (officials (db_after (updateOfficialRating 1 db_two_reviews))) ->
    Official.id o = 1 ->
    (Official.averageRating o = 0 <->
     reviews_for_official 1 db_two_reviews = []).
Proof.
  assert (H : forall j, In j (reviews_for_official 1 db_two_reviews) ->
                        review_scores_in_range (Review.row j)).
  { intros j [<-|[<-|[]]]; unfold review_scores_in_range; simpl; lia. }
  split; [exact H|].
  exact (proj2 (proj2 (rating_zero_iff_unreviewed 1 db_two_reviews H))).
Defined.

(* ================================================================== *)
(** * The review ledger *)
(* ================================================================== *)

Lemma filter_nil_iff {A : Type} (f : A -> bool) (l : list A) :
  filter f l = [] <-> (forall x, In x l -> f x = false).
Proof.
  induction l as [|y l IH]; simpl.
  - tauto.
  - destruct (f y) eqn:E; split.
    + discriminate.
    + intros H. specialize (H y (or_introl eq_refl)). congruence.
    + intros H x [<-|Hx]; [assumption|]. now apply IH.
    + intros H. apply IH. intros x Hx. apply H. now right.
Qed.

(** The steps of [createReview]: the two checks in their order, then
    the insert, the recompute and the query for the details. *)
Lemma createReview_run (now : Z) (review : InsertReview.t) (d : Database) :
  createReview now review d =
  match filter (same_triple review) (reviews d) with
  | _ :: _ => mkRun d [] (Thrown DuplicateReviewError)
  | [] =>
      match filter (assigns review) (eventOfficials d) with
      | [] => mkRun d [] (Thrown OfficialNotAssignedError)
      | _ :: _ =>
          let inserted := insert_review now review d in
          let d' := db_after (updateOfficialRating
                                (InsertReview.officialId review)
                                (db_after inserted)) in
          mkRun d' []
            (Returned
               (hd_error
                  (filter (fun j => ReviewRow.id (Review.row j)
                                    =? reviews_id_seq d + 1)
                          (reviews_join_users_events d'))))
      end
  end.
Proof.
  unfold createReview, bind, query. simpl.
  destruct (filter (same_triple review) (reviews d)); simpl; [|reflexivity].
  destruct (filter (assigns review) (eventOfficials d)); reflexivity.
Qed.

(** C4. [createReview] checks its two preconditions in order.  When a
    review of the same user for the same official at the same event is
    stored, it throws the duplicate-review error, whether or not the
    official is assigned to the event.  Otherwise, when no assignment
    links the official to the event, it throws the not-assigned error.
    Either way the database is left as it was: no review row is written
    and no official's [averageRating] or [totalReviews] changes. *)
Theorem createReview_preconditions
        (now : Z) (review : InsertReview.t) (d : Database) :
  let run := createReview now review d in
  let duplicate :=
    exists r, In r (reviews d) /\
              ReviewRow.userId r = InsertReview.userId review /\
              ReviewRow.officialId r = InsertReview.officialId review /\
              ReviewRow.eventId r = InsertReview.eventId review in
  let assigned :=
    exists a, In a (eventOfficials d) /\
              EventOfficial.officialId a = InsertReview.officialId review /\
              EventOfficial.eventId a = InsertReview.eventId review in
  (duplicate ->
   outcome run = Thrown DuplicateReviewError /\ db_after run = d) /\
  (~ duplicate -> ~ assigned ->
   outcome run = Thrown OfficialNotAssignedError /\ db_after run = d) /\
  (forall e, outcome run = Thrown e ->
     reviews (db_after run) = reviews d /\
     officials (db_after run) = officials d).
Proof.
  intros run duplicate assigned. subst run.
  rewrite createReview_run.
  split; [|split].
  - intros [r [Hr [Hu [Ho He]]]].
    destruct (filter (same_triple review) (reviews d)) eqn:E.
    + exfalso. rewrite filter_nil_iff in E. specialize (E r Hr).
      unfold same_triple in E. rewrite Hu, Ho, He, !Z.eqb_refl in E.
      discriminate.
    + split; reflexivity.
  - intros Hdup Hasg.
    destruct (filter (same_triple review) (reviews d)) as [|r l] eqn:E.
    + destruct (filter (assigns review) (eventOfficials d)) as [|a l'] eqn:E'.
      * split; reflexivity.
      * exfalso. apply Hasg. exists a.
        assert (Ha : In a (filter (assigns review) (eventOfficials d)))
          by (rewrite E'; now left).
        apply filter_In in Ha. destruct Ha as [Ha Hb].
        unfold assigns in Hb. apply andb_prop in Hb.
        destruct Hb as [H1 H2]. apply Z.eqb_eq in H1, H2. auto.
    + exfalso. apply Hdup. exists r.
      assert (Hr : In r (filter (same_triple review) (reviews d)))
        by (rewrite E; now left).
      apply filter_In in Hr. destruct Hr as [Hr Hb].
      unfold same_triple in Hb. apply andb_prop in Hb.
      destruct Hb as [Hb H3]. apply andb_prop in Hb.
      destruct Hb as [H1 H2]. apply Z.eqb_eq in H1, H2, H3. auto.
  - intros e.
    destruct (filter (same_triple review) (reviews d)).
    + destruct (filter (assigns review) (eventOfficials d)).
      * intros _. split; reflexivity.
      * simpl. discriminate.
    + intros _. split; reflexivity.
Qed.

Lemma createReview_preconditions_witness :
  (outcome (createReview 1700000200000 (sample_insert 1 1 1 3) db_unassigned)
   = Thrown DuplicateReviewError /\
   db_after (createReview 1700000200000 (sample_insert 1 1 1 3) db_unassigned)
   = db_unassigned) /\
  (outcome (createReview 1700000200000 (sample_insert 1 1 2 3) db_one_review)
   = Thrown OfficialNotAssignedError /\
   db_after (createReview 1700000200000 (sample_insert 1 1 2 3) db_one_review)
   = db_one_review).
Proof.
  split.
  - apply (proj1 (createReview_preconditions
                    1700000200000 (sample_insert 1 1 1 3) db_unassigned)).
    exists (sample_review 1 1 1 1 5 5 5 5 5 5). simpl. tauto.
  - apply (proj1 (proj2 (createReview_preconditions
                           1700000200000 (sample_insert 1 1 2 3)
                           db_one_review))).
    + intros [r [[<-|[]] [_ [_ H]]]]. discriminate H.
    + intros [a [[<-|[]] [_ H]]]. discriminate H.
Defined.

(* ================================================================== *)
(** * Ordering, filtering and mapping the joined reviews *)
(* ================================================================== *)

Lemma insert_by_date_desc_sorted (x : Review.t) (l : list Review.t) :
  StronglySorted newer_first l ->
  StronglySorted newer_first (insert_by_date_desc x l).
Proof.
  induction 1 as [|y l Hs IH Hall]; simpl.
  - constructor; constructor.
  - destruct (ReviewRow.date (Review.row y) <=? ReviewRow.date (Review.row x))
      eqn:E.
    + apply Z.leb_le in E. constructor.
      * now constructor.
      * constructor; [exact E|].
        eapply Forall_impl; [|exact Hall]. unfold newer_first. intros; lia.
    + apply Z.leb_gt in E. constructor; [assumption|].
      apply (Permutation_Forall
               (Permutation_sym (insert_by_date_desc_perm x l))).
      constructor; [unfold newer_first; lia|assumption].
Qed.

(** [getReviewsForOfficial] lists the most recent review first. *)
Lemma orderBy_date_desc_sorted (l : list Review.t) :
  StronglySorted newer_first (orderBy_date_desc l).
Proof.
  induction l as [|x l IH]; simpl.
  - constructor.
  - now apply insert_by_date_desc_sorted.
Qed.

Lemma insert_by_date_desc_head (x : Review.t) (l : list Review.t) :
  Forall (newer_first x) l -> insert_by_date_desc x l = x :: l.
Proof.
  destruct l as [|y l]; simpl; [reflexivity|].
  intros H. inversion H as [|? ? Hy _]; subst.
  unfold newer_first in Hy. apply Z.leb_le in Hy. now rewrite Hy.
Qed.

Lemma filter_insert_by_date_desc
      (p : Review.t -> bool) (x : Review.t) (l : list Review.t) :
  StronglySorted newer_first l ->
  filter p (insert_by_date_desc x l) =
  if p x then insert_by_date_desc x (filter p l) else filter p l.
Proof.
  induction 1 as [|y l Hs IH Hall]; simpl.
  - destruct (p x); reflexivity.
  - destruct (ReviewRow.date (Review.row y) <=? ReviewRow.date (Review.row x))
      eqn:E; simpl.
    + destruct (p x) eqn:Px; [|reflexivity].
      destruct (p y) eqn:Py.
      * simpl. now rewrite E.
      * symmetry. apply insert_by_date_desc_head.
        apply Forall_forall. intros z Hz. apply filter_In in Hz.
        destruct Hz as [Hz _]. rewrite Forall_forall in Hall.
        specialize (Hall z Hz). apply Z.leb_le in E.
        unfold newer_first in *. lia.
    + rewrite IH. destruct (p y) eqn:Py; destruct (p x) eqn:Px;
        simpl; try rewrite E; reflexivity.
Qed.

Lemma orderBy_date_desc_filter (p : Review.t -> bool) (l : list Review.t) :
  orderBy_date_desc (filter p l) = filter p (orderBy_date_desc l).
Proof.
  induction l as [|x l IH]; simpl; [reflexivity|].
  rewrite filter_insert_by_date_desc by apply orderBy_date_desc_sorted.
  destruct (p x); simpl; now rewrite IH.
Qed.

Lemma insert_by_date_desc_map
      (g : Review.t -> Review.t) (x : Review.t) (l : list Review.t) :
  (forall j, ReviewRow.date (Review.row (g j)) = ReviewRow.date (Review.row j)) ->
  insert_by_date_desc (g x) (map g l) = map g (insert_by_date_desc x l).
Proof.
  intros Hg. induction l as [|y l IH]; simpl; [reflexivity|].
  rewrite !Hg.
  destruct (ReviewRow.date (Review.row y) <=? ReviewRow.date (Review.row x));
    simpl; [reflexivity|now rewrite IH].
Qed.

Lemma orderBy_date_desc_map (g : Review.t -> Review.t) (l : list Review.t) :
  (forall j, ReviewRow.date (Review.row (g j)) = ReviewRow.date (Review.row j)) ->
  orderBy_date_desc (map g l) = map g (orderBy_date_desc l).
Proof.
  intros Hg. induction l as [|x l IH]; simpl; [reflexivity|].
  rewrite IH. now apply insert_by_date_desc_map.
Qed.

Lemma filter_all {A : Type} (p : A -> bool) (l : list A) :
  (forall x, In x l -> p x = true) -> filter p l = l.
Proof.
  induction l as [|y l IH]; simpl; intros H; [reflexivity|].
  rewrite (H y (or_introl eq_refl)). f_equal. apply IH.
  intros x Hx. apply H. now right.
Qed.

Lemma filter_flat_map {A B : Type} (f : A -> list B) (p : A -> bool)
      (q : B -> bool) (l : list A) :
  (forall x y, In y (f x) -> q y = p x) ->
  filter q (flat_map f l) = flat_map f (filter p l).
Proof.
  intros H. induction l as [|x l IH]; simpl; [reflexivity|].
  rewrite filter_app, IH. destruct (p x) eqn:Px; simpl.
  - f_equal. apply filter_all. intros y Hy. now rewrite (H x y Hy).
  - replace (filter q (f x)) with (@nil B); [reflexivity|].
    symmetry. apply filter_nil_iff. intros y Hy. now rewrite (H x y Hy).
Qed.

Lemma filter_comm {A : Type} (p q : A -> bool) (l : list A) :
  filter p (filter q l) = filter q (filter p l).
Proof.
  induction l as [|x l IH]; simpl; [reflexivity|].
  destruct (p x) eqn:Px, (q x) eqn:Qx; simpl;
    rewrite ?Px, ?Qx, IH; reflexivity.
Qed.

(** Removing review rows removes their joined reviews and no other. *)
Lemma reviews_for_official_filter
      (p : ReviewRow.t -> bool) (id : Z) (d : Database) :
  reviews_for_official id (with_reviews d (filter p (reviews d))) =
  filter (fun j => p (Review.row j)) (reviews_for_official id d).
Proof.
  unfold reviews_for_official, reviews_join_users_events. simpl.
  rewrite <- orderBy_date_desc_filter. f_equal.
  rewrite filter_comm. f_equal.
  symmetry. apply filter_flat_map.
  intros r j Hj. apply in_flat_map in Hj. destruct Hj as [u [_ Hj]].
  apply in_map_iff in Hj. destruct Hj as [e [<- _]]. reflexivity.
Qed.

Lemma filter_map_comm {A : Type} (q : A -> bool) (g : A -> A) (l : list A) :
  (forall x, q (g x) = q x) -> filter q (map g l) = map g (filter q l).
Proof.
  intros H. induction l as [|x l IH]; simpl; [reflexivity|].
  rewrite H, IH. destruct (q x); reflexivity.
Qed.

Lemma reviews_join_map (g : ReviewRow.t -> ReviewRow.t) (d : Database) :
  (forall r, ReviewRow.userId (g r) = ReviewRow.userId r /\
             ReviewRow.eventId (g r) = ReviewRow.eventId r) ->
  reviews_join_users_events (with_reviews d (map g (reviews d))) =
  map (on_row g) (reviews_join_users_events d).
Proof.
  intros Hg. unfold reviews_join_users_events. simpl.
  induction (reviews d) as [|r l IH]; simpl; [reflexivity|].
  rewrite map_app, IH. f_equal.
  destruct (Hg r) as [Hu He]. rewrite Hu, He.
  generalize (filter (fun e => ReviewRow.eventId r =? Event.id e) (events d)).
  generalize (filter (fun u => ReviewRow.userId r =? User.id u) (users d)).
  intros us es. induction us as [|u us IHu]; simpl; [reflexivity|].
  rewrite map_app, IHu, map_map. reflexivity.
Qed.

(** Rewriting review rows without touching their keys or their date
    rewrites the joined reviews in place. *)
Lemma reviews_for_official_map
      (g : ReviewRow.t -> ReviewRow.t) (id : Z) (d : Database) :
  (forall r, ReviewRow.officialId (g r) = ReviewRow.officialId r /\
             ReviewRow.userId (g r) = ReviewRow.userId r /\
             ReviewRow.eventId (g r) = ReviewRow.eventId r /\
             ReviewRow.date (g r) = ReviewRow.date r) ->
  reviews_for_official id (with_reviews d (map g (reviews d))) =
  map (on_row g) (reviews_for_official id d).
Proof.
  intros Hg. unfold reviews_for_official.
  rewrite reviews_join_map by (intros r; destruct (Hg r); tauto).
  rewrite filter_map_comm by (intros j; simpl; now rewrite (proj1 (Hg _))).
  apply orderBy_date_desc_map. intros j. simpl. apply Hg.
Qed.

Lemma sum_scores_on_row (f : ReviewRow.t -> Z) (g : ReviewRow.t -> ReviewRow.t)
      (rs : list Review.t) :
  (forall r, f (g r) = f r) ->
  sum_scores f (map (on_row g) rs) = sum_scores f rs.
Proof.
  intros H. induction rs as [|j rs IH]; simpl; [reflexivity|].
  now rewrite H, IH.
Qed.

(** The averages only read the six scores. *)
Lemma category_averages_of_on_row
      (g : ReviewRow.t -> ReviewRow.t) (rs : list Review.t) :
  (forall r, ReviewRow.mechanics (g r) = ReviewRow.mechanics r /\
             ReviewRow.professionalism (g r) = ReviewRow.professionalism r /\
             ReviewRow.positioning (g r) = ReviewRow.positioning r /\
             ReviewRow.stalling (g r) = ReviewRow.stalling r /\
             ReviewRow.consistency (g r) = ReviewRow.consistency r /\
             ReviewRow.appearance (g r) = ReviewRow.appearance r) ->
  category_averages_of (map (on_row g) rs) = category_averages_of rs.
Proof.
  intros Hg. destruct rs as [|j rs]; [reflexivity|].
  rewrite (category_averages_of_nonempty (map (on_row g) (j :: rs)))
    by discriminate.
  rewrite (category_averages_of_nonempty (j :: rs)) by discriminate.
  cbv zeta. rewrite length_map.
  rewrite !sum_scores_on_row; try reflexivity; intros r; apply Hg.
Qed.

Lemma mark_reported_keeps (id : Z) (r : ReviewRow.t) :
  ReviewRow.id (mark_reported id r) = ReviewRow.id r /\
  ReviewRow.officialId (mark_reported id r) = ReviewRow.officialId r /\
  ReviewRow.userId (mark_reported id r) = ReviewRow.userId r /\
  ReviewRow.eventId (mark_reported id r) = ReviewRow.eventId r /\
  ReviewRow.mechanics (mark_reported id r) = ReviewRow.mechanics r /\
  ReviewRow.professionalism (mark_reported id r) = ReviewRow.professionalism r /\
  ReviewRow.positioning (mark_reported id r) = ReviewRow.positioning r /\
  ReviewRow.stalling (mark_reported id r) = ReviewRow.stalling r /\
  ReviewRow.consistency (mark_reported id r) = ReviewRow.consistency r /\
  ReviewRow.appearance (mark_reported id r) = ReviewRow.appearance r /\
  ReviewRow.comment (mark_reported id r) = ReviewRow.comment r /\
  ReviewRow.date (mark_reported id r) = ReviewRow.date r /\
  ReviewRow.isAnonymous (mark_reported id r) = ReviewRow.isAnonymous r.
Proof.
  unfold mark_reported. destruct (ReviewRow.id r =? id); repeat split.
Qed.

Lemma reportReview_run (id : Z) (d : Database) :
  reportReview id d =
  mkRun (with_reviews d (map (mark_reported id) (reviews d))) []
        (Returned tt).
Proof. reflexivity. Qed.

(** C8. [reportReview id] sets [isReported] on the review with that id
    and changes nothing else: the other fields of that review, the other
    reviews, the officials with their [averageRating] and [totalReviews]
    and every other table stay as they were.  Reported reviews are not
    excluded from aggregation: the valid reviews of every official are
    the same reviews, flag apart, so every later recompute computes the
    averages and stores the aggregate it would have without the
    report. *)
Theorem reportReview_frame (id : Z) (d : Database) :
  let run := reportReview id d in
  let d' := db_after run in
  outcome run = Returned tt /\
  reviews d' = map (mark_reported id) (reviews d) /\
  (forall r, ReviewRow.id r = id ->
             ReviewRow.isReported (mark_reported id r) = true) /\
  (forall r, ReviewRow.id r <> id -> mark_reported id r = r) /\
  (forall r,
     ReviewRow.id (mark_reported id r) = ReviewRow.id r /\
     ReviewRow.officialId (mark_reported id r) = ReviewRow.officialId r /\
     ReviewRow.userId (mark_reported id r) = ReviewRow.userId r /\
     ReviewRow.eventId (mark_reported id r) = ReviewRow.eventId r /\
     ReviewRow.mechanics (mark_reported id r) = ReviewRow.mechanics r /\
     ReviewRow.professionalism (mark_reported id r)
       = ReviewRow.professionalism r /\
     ReviewRow.positioning (mark_reported id r) = ReviewRow.positioning r /\
     ReviewRow.stalling (mark_reported id r) = ReviewRow.stalling r /\
     ReviewRow.consistency (mark_reported id r) = ReviewRow.consistency r /\
     ReviewRow.appearance (mark_reported id r) = ReviewRow.appearance r /\
     ReviewRow.comment (mark_reported id r) = ReviewRow.comment r /\
     ReviewRow.date (mark_reported id r) = ReviewRow.date r /\
     ReviewRow.isAnonymous (mark_reported id r) = ReviewRow.isAnonymous r) /\
  officials d' = officials d /\
  users d' = users d /\
  events d' = events d /\
  eventOfficials d' = eventOfficials d /\
  eventTeams d' = eventTeams d /\
  (forall oid,
     reviews_for_official oid d' =
       map (on_row (mark_reported id)) (reviews_for_official oid d) /\
     outcome (calculateCategoryAverages oid d') =
       outcome (calculateCategoryAverages oid d) /\
     fresh_rating oid d' = fresh_rating oid d /\
     officials (db_after (updateOfficialRating oid d')) =
       officials (db_after (updateOfficialRating oid d))).
Proof.
  intros run d'. subst run d'. rewrite reportReview_run.
  cbn [db_after outcome].
  split; [reflexivity|]. split; [reflexivity|].
  split.
  { intros r Hr. unfold mark_reported. apply Z.eqb_eq in Hr.
    now rewrite Hr. }
  split.
  { intros r Hr. unfold mark_reported. apply Z.eqb_neq in Hr.
    now rewrite Hr. }
  split; [apply mark_reported_keeps|].
  do 5 (split; [reflexivity|]).
  intros oid.
  assert (Hrs : reviews_for_official oid
                  (with_reviews d (map (mark_reported id) (reviews d))) =
                map (on_row (mark_reported id)) (reviews_for_official oid d)).
  { apply reviews_for_official_map. intros r.
    pose proof (mark_reported_keeps id r). tauto. }
  assert (Havg : category_averages_of
                   (map (on_row (mark_reported id))
                        (reviews_for_official oid d)) =
                 category_averages_of (reviews_for_official oid d)).
  { apply category_averages_of_on_row. intros r.
    pose proof (mark_reported_keeps id r). tauto. }
  assert (Hfresh : fresh_rating oid
                     (with_reviews d (map (mark_reported id) (reviews d))) =
                   fresh_rating oid d).
  { unfold fresh_rating. now rewrite Hrs, Havg, length_map. }
  split; [exact Hrs|]. split.
  { rewrite !calculateCategoryAverages_run. cbn [outcome].
    now rewrite Hrs, Havg. }
  split; [exact Hfresh|].
  rewrite !updateOfficialRating_run. cbn [db_after with_officials officials].
  now rewrite Hfresh.
Qed.

Lemma deleteReview_run (id : Z) (d : Database) :
  deleteReview id d =
  match filter (fun r => ReviewRow.id r =? id) (reviews d) with
  | [] => mkRun d [] (Thrown ReviewNotFoundError)
  | r :: _ =>
      mkRun
        (db_after
           (updateOfficialRating (ReviewRow.officialId r)
              (with_reviews d
                 (filter (fun x => negb (ReviewRow.id x =? id)) (reviews d)))))
        [] (Returned tt)
  end.
Proof.
  unfold deleteReview, bind, query. simpl.
  destruct (filter (fun r => ReviewRow.id r =? id) (reviews d)); reflexivity.
Qed.

(** With [id] a key of the table, the row with a given id is the only
    row the query for that id returns. *)
Lemma filter_by_key (r : ReviewRow.t) (l : list ReviewRow.t) :
  NoDup (map ReviewRow.id l) -> In r l ->
  filter (fun x => ReviewRow.id x =? ReviewRow.id r) l = [r].
Proof.
  induction l as [|y l IH]; simpl; [contradiction|].
  intros Hnd Hin. inversion Hnd as [|? ? Hy Hnd']; subst.
  destruct Hin as [->|Hin].
  - rewrite Z.eqb_refl. f_equal. apply filter_nil_iff.
    intros x Hx. apply Z.eqb_neq. intros E. apply Hy.
    rewrite <- E. now apply in_map.
  - destruct (ReviewRow.id y =? ReviewRow.id r) eqn:E.
    + exfalso. apply Z.eqb_eq in E. apply Hy. rewrite E. now apply in_map.
    + now apply IH.
Qed.

(** C5. [deleteReview id] throws the review-not-found error and leaves
    the database as it was when no review has that id.  When review [r]
    has that id, it returns, having removed exactly that row from the
    reviews, and having stored on the official of [r] the rating and the
    count computed from the valid reviews that remain, which are the
    former ones without [r]'s: the result is the one a recompute over the
    remaining reviews alone produces, and a fresh recompute changes
    nothing. *)
Theorem deleteReview_converges (id : Z) (d : Database) :
  let run := deleteReview id d in
  let d' := db_after run in
  ((forall r, In r (reviews d) -> ReviewRow.id r <> id) ->
   outcome run = Thrown ReviewNotFoundError /\ d' = d) /\
  (forall r,
     NoDup (map ReviewRow.id (reviews d)) ->
     In r (reviews d) -> ReviewRow.id r = id ->
     let oid := ReviewRow.officialId r in
     let remaining :=
       filter (fun x => negb (ReviewRow.id x =? id)) (reviews d) in
     outcome run = Returned tt /\
     reviews d' = remaining /\
     (forall x, In x (reviews d') <-> In x (reviews d) /\ x <> r) /\
     length (reviews d) = S (length (reviews d')) /\
     users d' = users d /\
     events d' = events d /\
     eventOfficials d' = eventOfficials d /\
     reviews_for_official oid d' =
       filter (fun j => negb (ReviewRow.id (Review.row j) =? id))
              (reviews_for_official oid d) /\
     (forall o, In o (officials d') -> Official.id o = oid ->
        Official.averageRating o =
          CategoryAverages.overall
            (category_averages_of (reviews_for_official oid d')) /\
        Official.totalReviews o =
          Z.of_nat (length (reviews_for_official oid d'))) /\
     (forall o, Official.id o <> oid ->
        (In o (officials d') <-> In o (officials d))) /\
     d' = db_after (updateOfficialRating oid (with_reviews d remaining)) /\
     db_after (updateOfficialRating oid d') = d').
Proof.
  intros run d'. subst run d'. rewrite deleteReview_run. split.
  - intros Hnone.
    replace (filter (fun r => ReviewRow.id r =? id) (reviews d))
      with (@nil ReviewRow.t); [split; reflexivity|].
    symmetry. apply filter_nil_iff. intros x Hx. apply Z.eqb_neq.
    now apply Hnone.
  - intros r Hkey Hr Hid oid remaining. subst id.
    rewrite (filter_by_key r (reviews d) Hkey Hr). cbn [db_after outcome].
    fold oid. fold remaining.
    set (d1 := with_reviews d remaining).
    assert (Hrev : reviews (db_after (updateOfficialRating oid d1))
                   = remaining) by reflexivity.
    assert (Hvalid : reviews_for_official oid
                       (db_after (updateOfficialRating oid d1)) =
                     filter (fun j => negb (ReviewRow.id (Review.row j)
                                            =? ReviewRow.id r))
                            (reviews_for_official oid d)).
    { rewrite (reviews_for_official_ext oid d1
                 (db_after (updateOfficialRating oid d1)))
        by reflexivity.
      subst d1 remaining.
      apply (reviews_for_official_filter
               (fun x => negb (ReviewRow.id x =? ReviewRow.id r))). }
    split; [reflexivity|]. split; [exact Hrev|].
    split.
    { intros x. rewrite Hrev. subst remaining. rewrite filter_In.
      rewrite negb_true_iff, Z.eqb_neq. split.
      - intros [Hx Hne]. split; [assumption|]. intros ->. now apply Hne.
      - intros [Hx Hne]. split; [assumption|]. intros E. apply Hne.
        pose proof (filter_by_key r (reviews d) Hkey Hr) as Hf.
        assert (Hx' : In x (filter (fun y => ReviewRow.id y =? ReviewRow.id r)
                                   (reviews d))).
        { apply filter_In. split; [assumption|now apply Z.eqb_eq]. }
        rewrite Hf in Hx'. destruct Hx' as [<-|[]]. reflexivity. }
    split.
    { rewrite Hrev. subst remaining.
      rewrite <- (filter_length (fun x => ReviewRow.id x =? ReviewRow.id r)
                                (reviews d)).
      now rewrite (filter_by_key r (reviews d) Hkey Hr). }
    do 3 (split; [reflexivity|]).
    split; [exact Hvalid|].
    split.
    { intros o Ho Hoid.
      pose proof (updateOfficialRating_rated oid d1 o Ho Hoid) as H.
      unfold fresh_rating in H. cbn [fst snd] in H.
      rewrite <- (reviews_for_official_ext oid d1
                    (db_after (updateOfficialRating oid d1))) in H
        by reflexivity.
      exact H. }
    split.
    { intros o Hoid. exact (updateOfficialRating_others oid d1 o Hoid). }
    split; [reflexivity|].
    apply updateOfficialRating_twice.
Qed.

Lemma deleteReview_converges_witness :
  (outcome (deleteReview 9 db_two_reviews) = Thrown ReviewNotFoundError /\
   db_after (deleteReview 9 db_two_reviews) = db_two_reviews) /\
  outcome (deleteReview 2 db_two_reviews) = Returned tt.
Proof.
  split.
  - apply (proj1 (deleteReview_converges 9 db_two_reviews)).
    intros r [<-|[<-|[]]]; discriminate.
  - refine (proj1 (proj2 (deleteReview_converges 2 db_two_reviews)
                     (sample_review 2 1 2 1 5 5 5 4 4 4) _ _ eq_refl)).
    + repeat constructor; simpl; intuition discriminate.
    + simpl. tauto.
Defined.

(** Deleting the second of the two sample reviews leaves the official
    with the aggregate of the first one alone. *)
Example deleteReview_two_reviews :
  officials (db_after (deleteReview 2 db_two_reviews)) =
    [sample_official 1 4 1] /\
  fresh_rating 1 (with_reviews db_two_reviews
                    [sample_review 1 1 1 1 4 4 4 4 4 4]) = (4, 1).
Proof. split; reflexivity. Qed.

(* ================================================================== *)
(** * The range invariant *)
(* ================================================================== *)

Section Preservation.

Variable P : Database -> Prop.

Lemma preserves_ret {A : Type} (a : A) : preserves P (ret a).
Proof. intros d H. exact H. Qed.

Lemma preserves_throw {A : Type} (e : Error) : preserves P (@throw A e).
Proof. intros d H. exact H. Qed.

Lemma preserves_query {A : Type} (q : Database -> A) : preserves P (query q).
Proof. intros d H. exact H. Qed.

Lemma preserves_console_log (msg : string) : preserves P (console_log msg).
Proof. intros d H. exact H. Qed.

Lemma preserves_console_error (msg : string) (e : Error) :
  preserves P (console_error msg e).
Proof. intros d H. exact H. Qed.

Lemma preserves_execute (w : Database -> Database) :
  (forall d, P d -> P (w d)) -> preserves P (execute w).
Proof. intros Hw d H. now apply Hw. Qed.

Lemma preserves_bind {A B : Type} (m : Promise A) (k : A -> Promise B) :
  preserves P m -> (forall a, preserves P (k a)) -> preserves P (bind m k).
Proof.
  intros Hm Hk d H. unfold bind. specialize (Hm d H).
  destruct (outcome (m d)) as [a|e]; simpl; [|exact Hm].
  now apply Hk.
Qed.

Lemma preserves_try_catch {A : Type} (m : Promise A)
      (handler : Error -> Promise A) :
  preserves P m -> (forall e, preserves P (handler e)) ->
  preserves P (try_catch m handler).
Proof.
  intros Hm Hh d H. unfold try_catch. specialize (Hm d H).
  destruct (outcome (m d)) as [a|e]; simpl; [exact Hm|].
  now apply Hh.
Qed.

Lemma preserves_for_of {A : Type} (xs : list A) (body : A -> Promise unit) :
  (forall x, preserves P (body x)) -> preserves P (for_of xs body).
Proof.
  intros Hbody. induction xs as [|x xs IH]; simpl.
  - apply preserves_ret.
  - apply preserves_bind; [apply Hbody|]. intros _. exact IH.
Qed.

End Preservation.

Lemma in_range_fewer_reviews (p : ReviewRow.t -> bool) (d : Database) :
  in_range d -> in_range (with_reviews d (filter p (reviews d))).
Proof.
  intros [Hrev Hrat]. split; [|exact Hrat].
  intros r Hr. apply filter_In in Hr. now apply Hrev.
Qed.

Lemma in_range_fewer_officials (p : Official.t -> bool) (d : Database) :
  in_range d -> in_range (with_officials d (filter p (officials d))).
Proof.
  intros [Hrev Hrat]. split; [exact Hrev|].
  intros o Ho. apply filter_In in Ho. now apply Hrat.
Qed.

Lemma updateOfficialRating_in_range (id : Z) :
  preserves in_range (updateOfficialRating id).
Proof.
  intros d [Hrev Hrat]. split; [exact Hrev|].
  intros o Ho.
  destruct (Z.eq_dec (Official.id o) id) as [Hid|Hid].
  - destruct (updateOfficialRating_rated id d o Ho Hid) as [Ha Ht].
    rewrite Ha, Ht. unfold fresh_rating. cbn [fst snd].
    split; [|lia].
    apply overall_range. intros j Hj. apply Hrev.
    exact (reviews_for_official_row j id d Hj).
  - apply Hrat. now apply (updateOfficialRating_others id d o Hid).
Qed.

Lemma updateOfficialRating_awaited_in_range (fault : StorageFault) (id : Z) :
  preserves in_range (updateOfficialRating_awaited fault id).
Proof.
  unfold updateOfficialRating_awaited. destruct (fault id).
  - apply preserves_throw.
  - apply updateOfficialRating_in_range.
Qed.

Lemma refreshAllOfficialRatings_in_range (fault : StorageFault) :
  preserves in_range (refreshAllOfficialRatings fault).
Proof.
  unfold refreshAllOfficialRatings, getOfficials_default, getOfficials.
  apply preserves_try_catch.
  - apply preserves_bind.
    + repeat (apply preserves_bind; [apply preserves_query|intros ?]).
      apply preserves_ret.
    + intros page. apply preserves_bind; [|intros _; apply preserves_console_log].
      apply preserves_for_of. intros o.
      apply updateOfficialRating_awaited_in_range.
  - intros e. apply preserves_bind; [apply preserves_console_error|].
    intros _. apply preserves_throw.
Qed.

Lemma score_in_range_spec (x : Z) : score_in_range x = true <-> 1 <= x <= 5.
Proof. unfold score_in_range. rewrite andb_true_iff, !Z.leb_le. tauto. Qed.

(** A row built from an input [insertReviewSchema] accepts has its
    scores between 1 and 5. *)
Lemma new_review_row_in_range (id now : Z) (review : InsertReview.t) :
  insertReviewSchema_accepts review = true ->
  review_scores_in_range (new_review_row id now review).
Proof.
  unfold insertReviewSchema_accepts, review_scores_in_range. simpl.
  rewrite !andb_true_iff, !score_in_range_spec. tauto.
Qed.

Lemma insert_review_in_range (now : Z) (review : InsertReview.t) :
  insertReviewSchema_accepts review = true ->
  preserves in_range (insert_review now review).
Proof.
  intros Hok d [Hrev Hrat]. split; [|exact Hrat].
  intros r Hr. simpl in Hr. apply in_app_or in Hr.
  destruct Hr as [Hr|[<-|[]]]; [now apply Hrev|].
  now apply new_review_row_in_range.
Qed.

Lemma createReview_in_range (now : Z) (review : InsertReview.t) :
  insertReviewSchema_accepts review = true ->
  preserves in_range (createReview now review).
Proof.
  intros Hok. unfold createReview.
  apply preserves_bind; [apply preserves_query|]. intros existing.
  destruct (0 <? length existing)%nat; [apply preserves_throw|].
  apply preserves_bind; [apply preserves_query|]. intros officialEvent.
  destruct (length officialEvent =? 0)%nat; [apply preserves_throw|].
  apply preserves_bind; [now apply insert_review_in_range|]. intros newReview.
  apply preserves_bind; [apply updateOfficialRating_in_range|]. intros _.
  apply preserves_bind; [apply preserves_query|]. intros rows.
  apply preserves_ret.
Qed.

Lemma deleteReview_in_range (id : Z) : preserves in_range (deleteReview id).
Proof.
  unfold deleteReview.
  apply preserves_bind; [apply preserves_query|]. intros [|officialId rows].
  - apply preserves_throw.
  - apply preserves_bind; [|intros _; apply updateOfficialRating_in_range].
    apply preserves_execute. intros d. apply in_range_fewer_reviews.
Qed.

Lemma reportReview_in_range (id : Z) : preserves in_range (reportReview id).
Proof.
  apply preserves_execute. intros d [Hrev Hrat]. split; [|exact Hrat].
  intros r Hr. simpl in Hr. apply in_map_iff in Hr.
  destruct Hr as [x [<- Hx]]. specialize (Hrev x Hx).
  change (review_scores_in_range (mark_reported id x)).
  unfold review_scores_in_range in *.
  pose proof (mark_reported_keeps id x) as K.
  destruct K as [_ [_ [_ [_ [K1 [K2 [K3 [K4 [K5 [K6 _]]]]]]]]]].
  now rewrite K1, K2, K3, K4, K5, K6.
Qed.

Lemma deleteUser_in_range (userId : Z) : preserves in_range (deleteUser userId).
Proof.
  unfold deleteUser.
  apply preserves_bind; [|intros _].
  - apply preserves_execute. intros d. apply in_range_fewer_reviews.
  - apply preserves_execute. intros d H. exact H.
Qed.

Lemma deleteEvent_in_range (id : Z) : preserves in_range (deleteEvent id).
Proof.
  unfold deleteEvent.
  apply preserves_bind; [apply preserves_execute; intros d H; exact H|].
  intros _.
  apply preserves_bind; [apply preserves_execute; intros d H; exact H|].
  intros _.
  apply preserves_bind;
    [apply preserves_execute; intros d; apply in_range_fewer_reviews|].
  intros _. apply preserves_execute. intros d H. exact H.
Qed.

Lemma deleteOfficial_in_range (id : Z) : preserves in_range (deleteOfficial id).
Proof.
  unfold deleteOfficial.
  apply preserves_bind; [apply preserves_execute; intros d H; exact H|].
  intros _.
  apply preserves_bind;
    [apply preserves_execute; intros d; apply in_range_fewer_reviews|].
  intros _. apply preserves_execute. intros d.
  apply in_range_fewer_officials.
Qed.

Lemma POST_officials_reviews_in_range (now : Z) (review : InsertReview.t) :
  preserves in_range (POST_officials_reviews now review).
Proof.
  unfold POST_officials_reviews.
  destruct (insertReviewSchema_accepts review) eqn:E; simpl.
  - apply preserves_try_catch.
    + apply preserves_bind; [now apply createReview_in_range|].
      intros created. apply preserves_ret.
    + intros e. apply preserves_bind; [apply preserves_console_error|].
      intros _. apply preserves_ret.
  - apply preserves_ret.
Qed.

Lemma DELETE_admin_users_in_range (userId : Z) :
  preserves in_range (DELETE_admin_users userId).
Proof.
  unfold DELETE_admin_users, getUserById.
  apply preserves_try_catch.
  - apply preserves_bind.
    + apply preserves_bind; [apply preserves_query|]. intros rows.
      apply preserves_ret.
    + intros [u|]; [|apply preserves_ret].
      apply preserves_bind; [apply deleteUser_in_range|]. intros _.
      apply preserves_ret.
  - intros e. apply preserves_bind; [apply preserves_console_error|].
    intros _. apply preserves_ret.
Qed.

Lemma DELETE_events_in_range (privileged : bool) (id : Z) :
  preserves in_range (DELETE_events privileged id).
Proof.
  unfold DELETE_events. apply preserves_try_catch.
  - destruct privileged; simpl; [|apply preserves_ret].
    apply preserves_bind; [apply deleteEvent_in_range|]. intros _.
    apply preserves_ret.
  - intros e. apply preserves_bind; [apply preserves_console_error|].
    intros _. apply preserves_ret.
Qed.

Lemma createOfficial_in_range (official : InsertOfficial.t) :
  preserves in_range (createOfficial official).
Proof.
  intros d [Hrev Hrat]. split; [exact Hrev|].
  intros o Ho. simpl in Ho. apply in_app_or in Ho.
  destruct Ho as [Ho|[<-|[]]]; [now apply Hrat|]. simpl. lia.
Qed.

(** C9. With every score of every stored review between 1 and 5, and
    the scores of a submitted review accepted by the schema, every
    operation of the subsystem, at the storage layer or through its
    route, whether it returns or throws, leaves
    every official with an [averageRating] between 0 and 5 and a
    [totalReviews] that is not negative, and leaves the stored scores
    between 1 and 5. *)
Theorem operations_keep_ratings_in_range (op : Operation) (d : Database) :
  reviews_in_range d ->
  ratings_in_range d ->
  operation_validated op ->
  ratings_in_range (perform op d) /\ reviews_in_range (perform op d).
Proof.
  intros Hrev Hrat Hop.
  assert (H : in_range d) by (split; assumption).
  cut (in_range (perform op d)); [intros [? ?]; split; assumption|].
  destruct op; simpl in *.
  - now apply createOfficial_in_range.
  - now apply updateOfficialRating_in_range.
  - now apply refreshAllOfficialRatings_in_range.
  - now apply createReview_in_range.
  - now apply deleteReview_in_range.
  - now apply reportReview_in_range.
  - now apply deleteUser_in_range.
  - now apply deleteEvent_in_range.
  - now apply deleteOfficial_in_range.
  - now apply POST_officials_reviews_in_range.
  - now apply DELETE_admin_users_in_range.
  - now apply DELETE_events_in_range.
Qed.

Lemma operations_keep_ratings_in_range_witness :
  reviews_in_range db_unreviewed /\
  ratings_in_range db_unreviewed /\
  ratings_in_range
    (perform (CreateReview 1700000200000 (sample_insert 1 1 1 3))
             db_unreviewed).
Proof.
  assert (H1 : reviews_in_range db_unreviewed) by (intros r []).
  assert (H2 : ratings_in_range db_unreviewed).
  { intros o [<-|[]]. simpl. lia. }
  split; [exact H1|]. split; [exact H2|].
  exact (proj1 (operations_keep_ratings_in_range
                  (CreateReview 1700000200000 (sample_insert 1 1 1 3))
                  db_unreviewed H1 H2 eq_refl)).
Defined.

(** The accepted review of the sample official is stored and counted. *)
Example createReview_unreviewed :
  let run := createReview 1700000200000 (sample_insert 1 1 1 3)
                          db_unreviewed in
  officials (db_after run) = [sample_official 1 3 1] /\
  reviews (db_after run) =
    [ReviewRow.mk 1 1 1 1 3 3 3 3 3 3 "" 1700000200000 false false].
Proof. split; reflexivity. Qed.

(* ================================================================== *)
(** * Cascading deletions *)
(* ================================================================== *)

Lemma deleteUser_run (userId : Z) (d : Database) :
  deleteUser userId d =
  mkRun
    (with_users
       (with_reviews d
          (filter (fun r => negb (ReviewRow.userId r =? userId)) (reviews d)))
       (filter (fun u => negb (User.id u =? userId)) (users d)))
    [] (Returned tt).
Proof. reflexivity. Qed.

Lemma deleteEvent_run (id : Z) (d : Database) :
  deleteEvent id d =
  mkRun
    (mkDatabase (users d) (officials d)
       (filter (fun e => negb (Event.id e =? id)) (events d))
       (filter (fun a => negb (EventOfficial.eventId a =? id))
               (eventOfficials d))
       (filter (fun t => negb (EventTeam.eventId t =? id)) (eventTeams d))
       (filter (fun r => negb (ReviewRow.eventId r =? id)) (reviews d))
       (officials_id_seq d) (reviews_id_seq d))
    [] (Returned tt).
Proof. reflexivity. Qed.

(** C2. [deleteUser] deletes every review of the user and the user, and
    [deleteEvent] deletes the reviews, the assignments and the team
    links of the event and the event; neither recomputes any rating, and
    neither do the routes that call them, so the officials keep the
    aggregate they had.  After user 1 of the sample database is deleted,
    official 1 has no review left and still shows a rating of 5 over 1
    review, where a refresh would store 0 and 0; the same holds after
    event 1 is deleted. *)
Theorem cascading_deletes_keep_cached_ratings :
  (forall userId d,
     let d' := db_after (deleteUser userId d) in
     outcome (deleteUser userId d) = Returned tt /\
     (forall r, In r (reviews d') <->
                In r (reviews d) /\ ReviewRow.userId r <> userId) /\
     (forall u, In u (users d') <-> In u (users d) /\ User.id u <> userId) /\
     officials d' = officials d) /\
  (forall id d,
     let d' := db_after (deleteEvent id d) in
     outcome (deleteEvent id d) = Returned tt /\
     (forall r, In r (reviews d') <->
                In r (reviews d) /\ ReviewRow.eventId r <> id) /\
     (forall e, In e (events d') <-> In e (events d) /\ Event.id e <> id) /\
     officials d' = officials d) /\
  (let d' := db_after (deleteUser 1 db_one_review) in
   reviews d' = [] /\
   reviews_for_official 1 d' = [] /\
   officials d' = [sample_official 1 5 1] /\
   officials (db_after (refreshAllOfficialRatings no_fault d')) =
     [sample_official 1 0 0]) /\
  (let d' := db_after (deleteEvent 1 db_one_review) in
   reviews d' = [] /\
   reviews_for_official 1 d' = [] /\
   officials d' = [sample_official 1 5 1] /\
   officials (db_after (refreshAllOfficialRatings no_fault d')) =
     [sample_official 1 0 0]) /\
  (forall userId d,
     officials (db_after (DELETE_admin_users userId d)) = officials d) /\
  (forall privileged id d,
     officials (db_after (DELETE_events privileged id d)) = officials d) /\
  (let run := DELETE_admin_users 1 db_one_review in
   outcome run
     = Returned (mkResponse 200 (Message "User deleted successfully")) /\
   db_after run = db_after (deleteUser 1 db_one_review)) /\
  (let run := DELETE_events true 1 db_one_review in
   outcome run
     = Returned (mkResponse 200 (Message "Event deleted successfully")) /\
   db_after run = db_after (deleteEvent 1 db_one_review)).
Proof.
  split; [|split; [|split; [|split; [|split; [|split; [|split]]]]]].
  - intros userId d d'. subst d'. rewrite deleteUser_run.
    cbn [db_after outcome]. split; [reflexivity|].
    split; [|split; [|reflexivity]].
    + intros r. simpl. rewrite filter_In, negb_true_iff, Z.eqb_neq. tauto.
    + intros u. simpl. rewrite filter_In, negb_true_iff, Z.eqb_neq. tauto.
  - intros id d d'. subst d'. rewrite deleteEvent_run.
    cbn [db_after outcome]. split; [reflexivity|].
    split; [|split; [|reflexivity]].
    + intros r. simpl. rewrite filter_In, negb_true_iff, Z.eqb_neq. tauto.
    + intros e. simpl. rewrite filter_In, negb_true_iff, Z.eqb_neq. tauto.
  - repeat split.
  - repeat split.
  - intros userId d. unfold DELETE_admin_users, try_catch.
    rewrite (bind_returned (getUserById userId) _ d
               (hd_error (filter (fun u => User.id u =? userId) (users d))))
      by reflexivity.
    destruct (hd_error (filter (fun u => User.id u =? userId) (users d)));
      reflexivity.
  - intros privileged id d. destruct privileged; reflexivity.
  - split; reflexivity.
  - split; reflexivity.
Qed.

(* ================================================================== *)
(** * Refreshing all officials *)
(* ================================================================== *)

Lemma recompute_each_tables (ids : list Z) (d : Database) :
  reviews (recompute_each ids d) = reviews d /\
  users (recompute_each ids d) = users d /\
  events (recompute_each ids d) = events d.
Proof.
  revert d. induction ids as [|a ids IH]; intros d; [repeat split|].
  exact (IH (db_after (updateOfficialRating a d))).
Qed.

Lemma fresh_rating_recompute_each (id : Z) (ids : list Z) (d : Database) :
  fresh_rating id (recompute_each ids d) = fresh_rating id d.
Proof.
  destruct (recompute_each_tables ids d) as [Hr [Hu He]].
  unfold fresh_rating.
  now rewrite (reviews_for_official_ext id d (recompute_each ids d) Hr Hu He).
Qed.

(** After the officials [ids] are recomputed, each row whose id is among
    them carries the fresh aggregate of its official, and every other
    row is as it was. *)
Lemma recompute_each_officials (ids : list Z) (d : Database) :
  officials (recompute_each ids d) =
  map (fun o =>
         if existsb (fun id => Official.id o =? id) ids
         then Official.set_rating o (fst (fresh_rating (Official.id o) d))
                                  (snd (fresh_rating (Official.id o) d))
         else o)
      (officials d).
Proof.
  revert d. induction ids as [|a ids IH]; intros d.
  - simpl. now rewrite map_id.
  - change (recompute_each (a :: ids) d)
      with (recompute_each ids (db_after (updateOfficialRating a d))).
    rewrite IH.
    replace (officials (db_after (updateOfficialRating a d)))
      with (map (fun o =>
                   if Official.id o =? a
                   then Official.set_rating o (fst (fresh_rating a d))
                                            (snd (fresh_rating a d))
                   else o)
                (officials d))
      by (now rewrite updateOfficialRating_run).
    rewrite map_map. apply map_ext. intros o.
    rewrite !fresh_rating_after_update. cbn [existsb].
    destruct (Official.id o =? a) eqn:Ea.
    + apply Z.eqb_eq in Ea. cbn [Official.set_rating Official.id orb].
      rewrite Ea.
      destruct (existsb (fun id => a =? id) ids); reflexivity.
    + cbn [orb]. reflexivity.
Qed.

(** The loop of [refreshAllOfficialRatings] when no statement rejects. *)
Lemma for_of_awaited_returns (fault : StorageFault) (os : list Official.t)
      (d : Database) :
  (forall o, In o os -> fault (Official.id o) = None) ->
  for_of os (fun official =>
               updateOfficialRating_awaited fault (Official.id official)) d =
  mkRun (recompute_each (map Official.id os) d) [] (Returned tt).
Proof.
  revert d. induction os as [|o os IH]; intros d Hok; [reflexivity|].
  cbn [for_of].
  rewrite (bind_returned _ _ d tt).
  - unfold updateOfficialRating_awaited at 2.
    rewrite (Hok o (or_introl eq_refl)).
    apply IH. intros x Hx. apply Hok. now right.
  - unfold updateOfficialRating_awaited.
    now rewrite (Hok o (or_introl eq_refl)).
  - unfold updateOfficialRating_awaited.
    now rewrite (Hok o (or_introl eq_refl)).
Qed.

(** The loop when the recompute of official [a] is the first to be
    rejected: the officials before [a] are recomputed, [a] and those
    after it are not. *)
Lemma for_of_awaited_throws (fault : StorageFault)
      (done rest : list Official.t) (a : Official.t) (e : Error)
      (d : Database) :
  (forall o, In o done -> fault (Official.id o) = None) ->
  fault (Official.id a) = Some e ->
  for_of (done ++ a :: rest)
         (fun official =>
            updateOfficialRating_awaited fault (Official.id official)) d =
  mkRun (recompute_each (map Official.id done) d) [] (Thrown e).
Proof.
  revert d. induction done as [|o done IH]; intros d Hok Ha.
  - cbn [app for_of]. unfold bind, updateOfficialRating_awaited.
    rewrite Ha. reflexivity.
  - cbn [app for_of].
    rewrite (bind_returned _ _ d tt).
    + unfold updateOfficialRating_awaited at 2.
      rewrite (Hok o (or_introl eq_refl)).
      apply IH; [|assumption]. intros x Hx. apply Hok. now right.
    + unfold updateOfficialRating_awaited.
      now rewrite (Hok o (or_introl eq_refl)).
    + unfold updateOfficialRating_awaited.
      now rewrite (Hok o (or_introl eq_refl)).
Qed.

Lemma refreshAllOfficialRatings_run (fault : StorageFault) (d : Database) :
  refreshAllOfficialRatings fault d =
  let loop :=
    for_of (firstn 20 (officials d))
           (fun official =>
              updateOfficialRating_awaited fault (Official.id official)) d in
  match outcome loop with
  | Returned _ =>
      mkRun (db_after loop)
            (console loop
             ++ [ConsoleLog "Completed refresh of all official ratings"])
            (Returned tt)
  | Thrown e =>
      mkRun (db_after loop)
            (console loop
             ++ [ConsoleError "Error refreshing all official ratings:" e])
            (Thrown e)
  end.
Proof.
  unfold refreshAllOfficialRatings, try_catch.
  rewrite (bind_returned getOfficials_default _ d
             (mkOfficialsPage (firstn 20 (officials d))
                              (Z.of_nat (length (officials d)))))
    by reflexivity.
  change (db_after (getOfficials_default d)) with d.
  cbn [data]. cbv zeta. unfold bind.
  destruct (outcome (for_of (firstn 20 (officials d)) _ d)) eqn:E;
    cbn [db_after console outcome console_log console_error throw app];
    rewrite ?app_nil_r; reflexivity.
Qed.

Lemma existsb_eqb_In (x : Z) (ids : list Z) :
  existsb (fun id => x =? id) ids = true <-> In x ids.
Proof.
  rewrite existsb_exists. split.
  - intros [y [Hy E]]. apply Z.eqb_eq in E. now subst y.
  - intros H. exists x. split; [assumption|apply Z.eqb_refl].
Qed.

Lemma recompute_each_rated (ids : list Z) (d : Database) (o : Official.t) :
  In o (officials (recompute_each ids d)) ->
  In (Official.id o) ids ->
  Official.averageRating o = fst (fresh_rating (Official.id o) d) /\
  Official.totalReviews o = snd (fresh_rating (Official.id o) d).
Proof.
  rewrite recompute_each_officials. intros Ho Hid.
  apply in_map_iff in Ho. destruct Ho as [x [Hx _]].
  destruct (existsb (fun id => Official.id x =? id) ids) eqn:E.
  - subst o. now simpl.
  - subst x. apply existsb_eqb_In in Hid. congruence.
Qed.

Lemma recompute_each_others (ids : list Z) (d : Database) (o : Official.t) :
  ~ In (Official.id o) ids ->
  (In o (officials (recompute_each ids d)) <-> In o (officials d)).
Proof.
  rewrite recompute_each_officials. intros Hid. split.
  - intros Ho. apply in_map_iff in Ho. destruct Ho as [x [Hx Hin]].
    destruct (existsb (fun id => Official.id x =? id) ids) eqn:E.
    + exfalso. apply Hid. subst o. simpl. now apply existsb_eqb_In.
    + now subst x.
  - intros Ho. apply in_map_iff. exists o. split; [|assumption].
    destruct (existsb (fun id => Official.id o =? id) ids) eqn:E;
      [|reflexivity].
    exfalso. apply Hid. now apply existsb_eqb_In.
Qed.

(** C1, as the code has it.  [refreshAllOfficialRatings] recomputes the
    officials it fetched one after the other, in the order fetched.  When
    no recompute fails, every fetched official is recomputed, each of
    their rows storing the rating and the count a recompute of that
    official alone computes, completion is logged and the batch returns.
    When the recompute of an official fails, the error is logged and
    thrown again and the batch stops there: the officials fetched before
    it are recomputed, and every other row, the failing official's and
    those after it included, stays as it was. *)
Theorem refreshAll_stops_at_first_failure
        (fault : StorageFault) (d : Database) (page : OfficialsPage) :
  outcome (getOfficials_default d) = Returned page ->
  let run := refreshAllOfficialRatings fault d in
  ((forall o, In o (data page) -> fault (Official.id o) = None) ->
   let ids := map Official.id (data page) in
   outcome run = Returned tt /\
   console run = [ConsoleLog "Completed refresh of all official ratings"] /\
   db_after run = recompute_each ids d /\
   (forall o, In o (officials (db_after run)) -> In (Official.id o) ids ->
      Official.averageRating o = fst (fresh_rating (Official.id o) d) /\
      Official.totalReviews o = snd (fresh_rating (Official.id o) d)) /\
   (forall o, ~ In (Official.id o) ids ->
      (In o (officials (db_after run)) <-> In o (officials d)))) /\
  (forall done a rest e,
     data page = done ++ a :: rest ->
     (forall o, In o done -> fault (Official.id o) = None) ->
     fault (Official.id a) = Some e ->
     let ids := map Official.id done in
     outcome run = Thrown e /\
     console run =
       [ConsoleError "Error refreshing all official ratings:" e] /\
     db_after run = recompute_each ids d /\
     (forall o, In o (officials (db_after run)) -> In (Official.id o) ids ->
        Official.averageRating o = fst (fresh_rating (Official.id o) d) /\
        Official.totalReviews o = snd (fresh_rating (Official.id o) d)) /\
     (forall o, ~ In (Official.id o) ids ->
        (In o (officials (db_after run)) <-> In o (officials d)))).
Proof.
  intros Hpage run. subst run.
  assert (Hdata : data page = firstn 20 (officials d)).
  { injection Hpage as <-. reflexivity. }
  rewrite refreshAllOfficialRatings_run. cbv zeta. rewrite <- Hdata.
  split.
  - intros Hok.
    rewrite (for_of_awaited_returns fault (data page) d Hok).
    cbn [db_after console outcome app].
    split; [reflexivity|]. split; [reflexivity|]. split; [reflexivity|].
    split.
    + intros o. apply recompute_each_rated.
    + intros o. apply recompute_each_others.
  - intros done a rest e Hsplit Hok Ha. rewrite Hsplit.
    rewrite (for_of_awaited_throws fault done rest a e d Hok Ha).
    cbn [db_after console outcome app].
    split; [reflexivity|]. split; [reflexivity|]. split; [reflexivity|].
    split.
    + intros o. apply recompute_each_rated.
    + intros o. apply recompute_each_others.
Qed.

Lemma refreshAll_stops_at_first_failure_witness :
  outcome (refreshAllOfficialRatings no_fault db_two_officials)
    = Returned tt /\
  outcome (refreshAllOfficialRatings fault_on_1 db_two_officials)
    = Thrown "Connection terminated unexpectedly".
Proof.
  pose (page := mkOfficialsPage (officials db_two_officials) 2).
  split.
  - refine (proj1 (proj1 (refreshAll_stops_at_first_failure
                            no_fault db_two_officials page eq_refl) _)).
    intros o _. reflexivity.
  - refine (proj1 (proj2 (refreshAll_stops_at_first_failure
                            fault_on_1 db_two_officials page eq_refl)
                     [] (sample_official 1 0 0) [sample_official 2 0 0]
                     "Connection terminated unexpectedly" eq_refl _ eq_refl)).
    intros o [].
Defined.

(** The claim of C1 fails on the code.  With the storage client failing
    while official 1 is recomputed, the batch throws, and official 2,
    whose recompute does not fail, keeps its stale rating 0 over 0
    reviews; when no recompute fails official 2 gets the rating 5 over 1
    review.  What is stored for official 2 depends on whether the
    recompute of official 1 failed. *)
Lemma refreshAll_not_best_effort :
  let failed := refreshAllOfficialRatings fault_on_1 db_two_officials in
  let clean := refreshAllOfficialRatings no_fault db_two_officials in
  fault_on_1 2 = None /\
  outcome failed = Thrown "Connection terminated unexpectedly" /\
  outcome (getOfficialById 2 (db_after failed))
    = Returned (Some (sample_official 2 0 0)) /\
  outcome (getOfficialById 2 (db_after clean))
    = Returned (Some (sample_official 2 5 1)) /\
  outcome (getOfficialById 2 (db_after failed))
    <> outcome (getOfficialById 2 (db_after clean)).
Proof.
  repeat split. discriminate.
Qed.

(** A table of at most 20 officials is fetched whole. *)
Lemma getOfficials_default_small_table (d : Database) :
  (length (officials d) <= 20)%nat ->
  outcome (getOfficials_default d) =
  Returned (mkOfficialsPage (officials d) (Z.of_nat (length (officials d)))).
Proof.
  intros Hlen. unfold getOfficials_default, getOfficials, bind, query, ret.
  cbn [db_after console outcome].
  change (Z.to_nat 20) with 20%nat.
  change (skipn (Z.to_nat ((1 - 1) * 20)) (officials d)) with (officials d).
  now rewrite firstn_all2.
Qed.

(** The batch fetches its officials with [getOfficials()], that is the
    first page of 20: in a table of 21 officials the last one is not
    recomputed. *)
Example refreshAll_first_page_only :
  let run := refreshAllOfficialRatings no_fault db_21_officials in
  outcome run = Returned tt /\
  outcome (getOfficialById 20 (db_after run))
    = Returned (Some (sample_official 20 0 0)) /\
  outcome (getOfficialById 21 (db_after run))
    = Returned (Some (sample_official 21 4 3)) /\
  fresh_rating 21 (db_after run) = (0, 0).
Proof. repeat split. Qed.

(* ================================================================== *)
(** * Stepping through a method *)
(* ================================================================== *)

(** Splits a goal [preserves P m] along the structure of [m]; [leaf]
    is tried first at every step and closes the steps that write. *)
Ltac preserves_with leaf :=
  repeat first
    [ leaf
    | apply preserves_ret
    | apply preserves_throw
    | apply preserves_query
    | apply preserves_console_log
    | apply preserves_console_error
    | apply preserves_for_of; intros ?
    | apply preserves_try_catch; [|intros ?]
    | apply preserves_bind; [|intros ?]
    | match goal with
      | |- preserves _ (match ?x with _ => _ end) => destruct x
      end ].

(** Turns a goal about the database an operation leaves into a goal
    [preserves P m]. *)
Ltac as_preserves P :=
  match goal with
  | H : P ?d |- P (db_after (?m ?d)) =>
      revert d H; change (preserves P m)
  end.

(* ================================================================== *)
(** * The cache and the reviews it is computed from *)
(* ================================================================== *)

(** The valid reviews of an official depend on the review rows of that
    official only. *)
Lemma reviews_for_official_own_rows (id : Z) (d d' : Database) :
  users d' = users d -> events d' = events d ->
  filter (fun r => ReviewRow.officialId r =? id) (reviews d') =
  filter (fun r => ReviewRow.officialId r =? id) (reviews d) ->
  reviews_for_official id d' = reviews_for_official id d.
Proof.
  intros Hu He Hr.
  unfold reviews_for_official, reviews_join_users_events.
  rewrite Hu, He. f_equal.
  assert (Hjoin : forall l,
    filter (fun j => ReviewRow.officialId (Review.row j) =? id)
      (flat_map (fun r =>
         flat_map (fun u =>
           map (fun e => review_with_details r u e)
             (filter (fun e => ReviewRow.eventId r =? Event.id e) (events d)))
           (filter (fun u => ReviewRow.userId r =? User.id u) (users d))) l) =
    flat_map (fun r =>
         flat_map (fun u =>
           map (fun e => review_with_details r u e)
             (filter (fun e => ReviewRow.eventId r =? Event.id e) (events d)))
           (filter (fun u => ReviewRow.userId r =? User.id u) (users d)))
      (filter (fun r => ReviewRow.officialId r =? id) l)).
  { intros l. apply filter_flat_map.
    intros r j Hj. apply in_flat_map in Hj. destruct Hj as [u [_ Hj]].
    apply in_map_iff in Hj. destruct Hj as [e [<- _]]. reflexivity. }
  now rewrite !Hjoin, Hr.
Qed.

Lemma fresh_rating_own_rows (id : Z) (d d' : Database) :
  users d' = users d -> events d' = events d ->
  filter (fun r => ReviewRow.officialId r =? id) (reviews d') =
  filter (fun r => ReviewRow.officialId r =? id) (reviews d) ->
  fresh_rating id d' = fresh_rating id d.
Proof.
  intros Hu He Hr. unfold fresh_rating.
  now rewrite (reviews_for_official_own_rows id d d' Hu He Hr).
Qed.




Lemma filter_app_one_out {A : Type} (p : A -> bool) (l : list A) (x : A) :
  p x = false -> filter p (l ++ [x]) = filter p l.
Proof.
  intros H. rewrite filter_app. simpl. rewrite H. apply app_nil_r.
Qed.






Lemma filter_filter_other (id oid : Z) (l : list ReviewRow.t) :
  oid <> id ->
  filter (fun x => ReviewRow.officialId x =? oid)
         (filter (fun x => negb (ReviewRow.officialId x =? id)) l) =
  filter (fun x => ReviewRow.officialId x =? oid) l.
Proof.
  intros Hne. rewrite filter_comm. apply filter_all.
  intros x Hx. apply filter_In in Hx. destruct Hx as [_ Ho].
  apply Z.eqb_eq in Ho. apply negb_true_iff, Z.eqb_neq. congruence.
Qed.

Lemma deleteOfficial_run (id : Z) (d : Database) :
  deleteOfficial id d =
  mkRun
    (mkDatabase (users d)
       (filter (fun o => negb (Official.id o =? id)) (officials d))
       (events d)
       (filter (fun a => negb (EventOfficial.officialId a =? id))
               (eventOfficials d))
       (eventTeams d)
       (filter (fun r => negb (ReviewRow.officialId r =? id)) (reviews d))
       (officials_id_seq d) (reviews_id_seq d))
    [] (Returned tt).
Proof. reflexivity. Qed.

Lemma fresh_rating_after_deleteOfficial (id oid : Z) (d : Database) :
  oid <> id ->
  fresh_rating oid (db_after (deleteOfficial id d)) = fresh_rating oid d.
Proof.
  intros Hne. rewrite deleteOfficial_run. cbn [db_after].
  apply fresh_rating_own_rows; try reflexivity.
  cbn [reviews]. now apply filter_filter_other.
Qed.






(** X2. A refresh during which no statement fails, over a table of at
    most 20 officials, returns and leaves every official's cache
    consistent, whatever the cache held before. *)
Theorem refresh_repairs_cache (d : Database) :
  (length (officials d) <= 20)%nat ->
  outcome (refreshAllOfficialRatings no_fault d) = Returned tt /\
  cache_consistent (db_after (refreshAllOfficialRatings no_fault d)).
Proof.
  intros Hlen. rewrite refreshAllOfficialRatings_run. cbv zeta.
  rewrite firstn_all2 by assumption.
  rewrite (for_of_awaited_returns no_fault (officials d) d)
    by (intros; reflexivity).
  cbn [db_after outcome]. split; [reflexivity|].
  intros o Ho. rewrite fresh_rating_recompute_each.
  assert (Hid : In (Official.id o) (map Official.id (officials d))).
  { rewrite recompute_each_officials in Ho. apply in_map_iff in Ho.
    destruct Ho as [x [Hx Hin]].
    assert (Official.id o = Official.id x).
    { destruct (existsb _ _) in Hx; subst o; reflexivity. }
    rewrite H. now apply in_map. }
  destruct (recompute_each_rated _ d o Ho Hid) as [Ha Ht].
  rewrite Ha, Ht. now destruct (fresh_rating (Official.id o) d).
Qed.

Lemma refresh_repairs_cache_witness :
  (length (officials db_two_officials) <= 20)%nat /\
  cache_consistent (db_after (refreshAllOfficialRatings no_fault
                                db_two_officials)).
Proof.
  assert (H : (length (officials db_two_officials) <= 20)%nat)
    by (simpl; lia).
  split; [exact H|].
  exact (proj2 (refresh_repairs_cache db_two_officials H)).
Defined.

(* ================================================================== *)
(** * Keys *)
(* ================================================================== *)

Lemma NoDup_map_filter {Row Key : Type} (p : Row -> bool) (key : Row -> Key)
      (rows : list Row) (Hkeys : NoDup (map key rows)) :
  NoDup (map key (filter p rows)).
Proof.
  revert Hkeys.
  induction rows as [|x l IH]; simpl; intros H; [constructor|].
  inversion H as [|? ? Hx Hl]; subst.
  destruct (p x); simpl; [|now apply IH].
  constructor; [|now apply IH].
  intros Hin. apply Hx. apply in_map_iff in Hin.
  destruct Hin as [y [Hy Hin]]. apply filter_In in Hin.
  rewrite <- Hy. apply in_map. tauto.
Qed.

Lemma NoDup_map_snoc {A B : Type} (f : A -> B) (l : list A) (x : A) :
  NoDup (map f l) -> ~ In (f x) (map f l) -> NoDup (map f (l ++ [x])).
Proof.
  intros Hl Hx. rewrite map_app. simpl.
  apply NoDup_app; [assumption|repeat constructor; intros []|].
  intros y Hy [<-|[]]. contradiction.
Qed.

Lemma map_id_mark_reported (id : Z) (l : list ReviewRow.t) :
  map ReviewRow.id (map (mark_reported id) l) = map ReviewRow.id l.
Proof.
  rewrite map_map. apply map_ext. intros r.
  apply (mark_reported_keeps id r).
Qed.

Lemma reviews_keyed_filter (p : ReviewRow.t -> bool) (d : Database) :
  reviews_keyed d -> reviews_keyed (with_reviews d (filter p (reviews d))).
Proof.
  intros [Hnd Hle]. split.
  - now apply NoDup_map_filter.
  - intros r Hr. apply filter_In in Hr. now apply Hle.
Qed.

Lemma reviews_keyed_marked (id : Z) (d : Database) :
  reviews_keyed d ->
  reviews_keyed (with_reviews d (map (mark_reported id) (reviews d))).
Proof.
  intros [Hnd Hle]. split.
  - cbn [reviews with_reviews]. now rewrite map_id_mark_reported.
  - intros r Hr. cbn in Hr. apply in_map_iff in Hr.
    destruct Hr as [x [<- Hx]].
    rewrite (proj1 (mark_reported_keeps id x)). now apply Hle.
Qed.

Lemma insert_review_keyed (now : Z) (review : InsertReview.t) :
  preserves reviews_keyed (insert_review now review).
Proof.
  intros d [Hnd Hle]. split; cbn.
  - apply NoDup_map_snoc; [assumption|].
    intros Hin. apply in_map_iff in Hin. destruct Hin as [r [Hr Hin]].
    specialize (Hle r Hin). cbn in Hr. lia.
  - intros r Hr. apply in_app_or in Hr.
    destruct Hr as [Hr|[<-|[]]]; [specialize (Hle r Hr)|cbn]; lia.
Qed.

(** The steps of the operations that write, for the review keys. *)
Ltac reviews_keyed_leaf :=
  first
    [ apply insert_review_keyed
    | apply preserves_execute; intros ? ?;
      first [ assumption
            | apply reviews_keyed_filter; assumption
            | apply reviews_keyed_marked; assumption ] ].

(** X3. Every operation keeps the review ids distinct and at most the
    last value of their sequence: the id [createReview] gives a new
    review is never the id of a stored one. *)
Theorem operations_keep_review_keys (op : Operation) (d : Database) :
  reviews_keyed d -> reviews_keyed (perform op d).
Proof.
  intros H. destruct op; cbn [perform]; as_preserves reviews_keyed;
    unfold createOfficial, updateOfficialRating, calculateCategoryAverages,
      getReviewsForOfficial, refreshAllOfficialRatings, getOfficials_default,
      getOfficials, updateOfficialRating_awaited, createReview, deleteReview,
      reportReview, deleteUser, deleteEvent, deleteOfficial,
      POST_officials_reviews, DELETE_admin_users, DELETE_events, getUserById;
    preserves_with reviews_keyed_leaf.
Qed.

Lemma operations_keep_review_keys_witness :
  reviews_keyed db_one_review /\
  reviews_keyed (perform (CreateReview 1700000200000 (sample_insert 1 2 1 3))
                         db_one_review).
Proof.
  assert (H : reviews_keyed db_one_review).
  { split.
    - repeat constructor. intros [].
    - intros r [<-|[]]. simpl. lia. }
  split; [exact H|].
  exact (operations_keep_review_keys
           (CreateReview 1700000200000 (sample_insert 1 2 1 3))
           db_one_review H).
Defined.

Lemma officials_keyed_filter (p : Official.t -> bool) (d : Database) :
  officials_keyed d ->
  officials_keyed (with_officials d (filter p (officials d))).
Proof.
  intros [Hnd Hle]. split.
  - now apply NoDup_map_filter.
  - intros o Ho. apply filter_In in Ho. now apply Hle.
Qed.

Lemma officials_keyed_rated (id avg total : Z) (d : Database) :
  officials_keyed d ->
  officials_keyed
    (with_officials d
       (map (fun o =>
               if Official.id o =? id
               then Official.set_rating o avg total
               else o)
            (officials d))).
Proof.
  intros [Hnd Hle].
  assert (Hid : forall o,
             Official.id (if Official.id o =? id
                          then Official.set_rating o avg total else o)
             = Official.id o).
  { intros o. now destruct (Official.id o =? id). }
  split.
  - cbn [officials with_officials]. rewrite map_map.
    rewrite (map_ext _ Official.id Hid). exact Hnd.
  - intros o Ho. cbn in Ho. apply in_map_iff in Ho.
    destruct Ho as [x [<- Hx]]. rewrite Hid. now apply Hle.
Qed.

Lemma createOfficial_keyed (official : InsertOfficial.t) :
  preserves officials_keyed (createOfficial official).
Proof.
  intros d [Hnd Hle]. split; cbn.
  - apply NoDup_map_snoc; [assumption|].
    intros Hin. apply in_map_iff in Hin. destruct Hin as [o [Ho Hin]].
    specialize (Hle o Hin). cbn in Ho. lia.
  - intros o Ho. apply in_app_or in Ho.
    destruct Ho as [Ho|[<-|[]]]; [specialize (Hle o Ho)|cbn]; lia.
Qed.

(** The steps of the operations that write, for the official keys. *)
Ltac officials_keyed_leaf :=
  first
    [ apply createOfficial_keyed
    | apply preserves_execute; intros ? ?;
      first [ assumption
            | apply officials_keyed_filter; assumption
            | apply officials_keyed_rated; assumption ] ].

(** X4. Every operation keeps the official ids distinct and at most the
    last value of their sequence: recomputing a rating never duplicates
    or renumbers an official, and a new official never takes the id of
    a stored one. *)
Theorem operations_keep_official_keys (op : Operation) (d : Database) :
  officials_keyed d -> officials_keyed (perform op d).
Proof.
  intros H. destruct op; cbn [perform]; as_preserves officials_keyed;
    unfold updateOfficialRating, calculateCategoryAverages,
      getReviewsForOfficial, refreshAllOfficialRatings, getOfficials_default,
      getOfficials, updateOfficialRating_awaited, createReview, insert_review,
      deleteReview, reportReview, deleteUser, deleteEvent, deleteOfficial,
      POST_officials_reviews, DELETE_admin_users, DELETE_events, getUserById;
    preserves_with officials_keyed_leaf.
Qed.

Lemma operations_keep_official_keys_witness :
  officials_keyed db_two_officials /\
  officials_keyed
    (perform (CreateOfficial
                (InsertOfficial.mk "Riley" "Referee" 35 "Shelbyville"
                                   "State Association" 7 None))
             db_two_officials).
Proof.
  assert (H : officials_keyed db_two_officials).
  { split.
    - repeat constructor; simpl; intuition discriminate.
    - intros o [<-|[<-|[]]]; simpl; lia. }
  split; [exact H|].
  exact (operations_keep_official_keys _ db_two_officials H).
Defined.








(* ================================================================== *)
(** * Submitting a review *)
(* ================================================================== *)


Lemma hd_error_None {A : Type} (l : list A) : hd_error l = None <-> l = [].
Proof. destruct l; simpl; split; congruence. Qed.


(** The run of an accepted submission. *)
Lemma createReview_accepted (now : Z) (review : InsertReview.t) (d : Database) :
  filter (same_triple review) (reviews d) = [] ->
  filter (assigns review) (eventOfficials d) <> [] ->
  let row := new_review_row (reviews_id_seq d + 1) now review in
  let d1 :=
    mkDatabase (users d) (officials d) (events d) (eventOfficials d)
               (eventTeams d) (reviews d ++ [row])
               (officials_id_seq d) (reviews_id_seq d + 1) in
  let d' := db_after (updateOfficialRating (InsertReview.officialId review)
                                           d1) in
  createReview now review d =
  mkRun d' []
    (Returned
       (hd_error
          (filter (fun j => ReviewRow.id (Review.row j)
                            =? reviews_id_seq d + 1)
                  (reviews_join_users_events d')))).
Proof.
  intros Hdup Hasg. rewrite createReview_run, Hdup.
  destruct (filter (assigns review) (eventOfficials d)); [congruence|].
  reflexivity.
Qed.

Lemma same_triple_spec (review : InsertReview.t) (r : ReviewRow.t) :
  same_triple review r = true <->
  ReviewRow.userId r = InsertReview.userId review /\
  ReviewRow.officialId r = InsertReview.officialId review /\
  ReviewRow.eventId r = InsertReview.eventId review.
Proof.
  unfold same_triple. rewrite !andb_true_iff, !Z.eqb_eq. tauto.
Qed.

Lemma assigns_spec (review : InsertReview.t) (a : EventOfficial.t) :
  assigns review a = true <->
  EventOfficial.officialId a = InsertReview.officialId review /\
  EventOfficial.eventId a = InsertReview.eventId review.
Proof.
  unfold assigns. rewrite !andb_true_iff, !Z.eqb_eq. tauto.
Qed.



(** X7. Once a submission has been accepted, any further submission of
    the same user for the same official at the same event, whatever its
    scores, throws the duplicate-review error and leaves the database as
    it was: a stored review cannot be replaced by submitting again. *)
Theorem createReview_resubmission
        (now now' : Z) (review review' : InsertReview.t) (d : Database)
        (v : option Review.t) :
  outcome (createReview now review d) = Returned v ->
  InsertReview.userId review' = InsertReview.userId review ->
  InsertReview.officialId review' = InsertReview.officialId review ->
  InsertReview.eventId review' = InsertReview.eventId review ->
  let d' := db_after (createReview now review d) in
  outcome (createReview now' review' d') = Thrown DuplicateReviewError /\
  db_after (createReview now' review' d') = d'.
Proof.
  intros Hret Hu Ho He d'. subst d'.
  rewrite createReview_run in Hret.
  destruct (filter (same_triple review) (reviews d)) eqn:Edup;
    [|discriminate].
  destruct (filter (assigns review) (eventOfficials d)) eqn:Easg;
    [discriminate|].
  assert (Hasg : filter (assigns review) (eventOfficials d) <> [])
    by (rewrite Easg; discriminate).
  rewrite (createReview_accepted now review d Edup Hasg). cbv zeta.
  cbn [db_after].
  set (row := new_review_row (reviews_id_seq d + 1) now review).
  rewrite createReview_run.
  destruct (filter (same_triple review') _) eqn:E'; [|split; reflexivity].
  exfalso. rewrite filter_nil_iff in E'.
  assert (Hin : In row (reviews d ++ [row]))
    by (apply in_or_app; right; now left).
  specialize (E' row Hin).
  assert (Hs : same_triple review' row = true).
  { apply same_triple_spec. subst row. cbn. now rewrite Hu, Ho, He. }
  congruence.
Qed.

Lemma createReview_resubmission_witness :
  outcome (createReview 1700000300000 (sample_insert 1 1 1 5)
             (db_after (createReview 1700000200000 (sample_insert 1 1 1 3)
                                     db_unreviewed)))
  = Thrown DuplicateReviewError.
Proof.
  exact (proj1 (createReview_resubmission 1700000200000 1700000300000
                  (sample_insert 1 1 1 3) (sample_insert 1 1 1 5)
                  db_unreviewed _ eq_refl eq_refl eq_refl eq_refl)).
Defined.

(* ================================================================== *)
(** * Stored reviews are not edited *)
(* ================================================================== *)

Lemma reviews_from_refl (d : Database) : reviews_from d d.
Proof. intros r Hr. exists r. auto. Qed.

Lemma reviews_from_filter (d0 : Database) (p : ReviewRow.t -> bool)
      (d : Database) :
  reviews_from d0 d -> reviews_from d0 (with_reviews d (filter p (reviews d))).
Proof.
  intros H r Hr. cbn in Hr. apply filter_In in Hr. now apply H.
Qed.

Lemma reviews_from_marked (d0 : Database) (id : Z) (d : Database) :
  reviews_from d0 d ->
  reviews_from d0 (with_reviews d (map (mark_reported id) (reviews d))).
Proof.
  intros H r' Hr. cbn in Hr. apply in_map_iff in Hr.
  destruct Hr as [x [<- Hx]]. destruct (H x Hx) as [r [Hr Hx']].
  exists r. split; [assumption|]. unfold mark_reported.
  destruct (ReviewRow.id x =? id); [|assumption].
  right. destruct Hx' as [->| ->]; reflexivity.
Qed.

(** The steps of the operations that write, for the origin of the
    reviews. *)
Ltac reviews_from_leaf :=
  apply preserves_execute; intros ? ?;
  first [ assumption
        | apply reviews_from_filter; assumption
        | apply reviews_from_marked; assumption ].

Lemma POST_officials_reviews_db (now : Z) (review : InsertReview.t)
      (d : Database) :
  db_after (POST_officials_reviews now review d) =
  if insertReviewSchema_accepts review
  then db_after (createReview now review d)
  else d.
Proof.
  unfold POST_officials_reviews.
  destruct (insertReviewSchema_accepts review); [|reflexivity].
  cbn [negb]. unfold try_catch, bind.
  destruct (outcome (createReview now review d)); reflexivity.
Qed.

Lemma createReview_reviews (now : Z) (review : InsertReview.t) (d : Database) :
  reviews (db_after (createReview now review d)) = reviews d \/
  reviews (db_after (createReview now review d)) =
    reviews d ++ [new_review_row (reviews_id_seq d + 1) now review].
Proof.
  rewrite createReview_run.
  destruct (filter (same_triple review) (reviews d)); [|now left].
  destruct (filter (assigns review) (eventOfficials d)); [now left|].
  now right.
Qed.

(** X8. No operation edits a stored review.  Every review found after
    an operation is a review that was stored before, identical but
    possibly for [isReported] set to [true], or it is the one row a
    submission inserts: scores, comment, date, user, official and event
    of a stored review never change, and a report is never undone. *)
Theorem operations_never_edit_reviews
        (op : Operation) (d : Database) (r' : ReviewRow.t) :
  In r' (reviews (perform op d)) ->
  (exists r, In r (reviews d) /\ (r' = r \/ r' = ReviewRow.set_reported r)) \/
  submitted_by op d r'.
Proof.
  assert (Hcreate : forall now review,
            In r' (reviews (db_after (createReview now review d))) ->
            (exists r, In r (reviews d) /\
                       (r' = r \/ r' = ReviewRow.set_reported r)) \/
            r' = new_review_row (reviews_id_seq d + 1) now review).
  { intros now review Hin.
    destruct (createReview_reviews now review d) as [E|E];
      rewrite E in Hin.
    - left. now apply reviews_from_refl.
    - apply in_app_or in Hin. destruct Hin as [Hin|[<-|[]]].
      + left. now apply reviews_from_refl.
      + now right. }
  assert (Hother : forall m : Promise unit,
            preserves (reviews_from d) m ->
            In r' (reviews (db_after (m d))) ->
            exists r, In r (reviews d) /\
                      (r' = r \/ r' = ReviewRow.set_reported r)).
  { intros m Hm Hin. exact (Hm d (reviews_from_refl d) r' Hin). }
  destruct op; cbn [perform submitted_by]; intros Hin.
  - left. revert Hin.
    assert (Hm : preserves (reviews_from d) (createOfficial official)).
    { unfold createOfficial. preserves_with reviews_from_leaf. }
    exact (Hm d (reviews_from_refl d) r').
  - left. revert Hin. apply Hother.
    unfold updateOfficialRating, calculateCategoryAverages,
      getReviewsForOfficial. preserves_with reviews_from_leaf.
  - left. revert Hin. apply Hother.
    unfold refreshAllOfficialRatings, getOfficials_default, getOfficials,
      updateOfficialRating_awaited, updateOfficialRating,
      calculateCategoryAverages, getReviewsForOfficial.
    preserves_with reviews_from_leaf.
  - now apply Hcreate.
  - left. revert Hin. apply Hother.
    unfold deleteReview, updateOfficialRating, calculateCategoryAverages,
      getReviewsForOfficial. preserves_with reviews_from_leaf.
  - left. revert Hin. apply Hother.
    unfold reportReview. preserves_with reviews_from_leaf.
  - left. revert Hin. apply Hother.
    unfold deleteUser. preserves_with reviews_from_leaf.
  - left. revert Hin. apply Hother.
    unfold deleteEvent. preserves_with reviews_from_leaf.
  - left. revert Hin. apply Hother.
    unfold deleteOfficial. preserves_with reviews_from_leaf.
  - rewrite POST_officials_reviews_db in Hin.
    destruct (insertReviewSchema_accepts review).
    + now apply Hcreate.
    + left. now apply reviews_from_refl.
  - left. revert Hin.
    assert (Hm : preserves (reviews_from d) (DELETE_admin_users userId)).
    { unfold DELETE_admin_users, getUserById, deleteUser.
      preserves_with reviews_from_leaf. }
    exact (Hm d (reviews_from_refl d) r').
  - left. revert Hin.
    assert (Hm : preserves (reviews_from d) (DELETE_events privileged id)).
    { unfold DELETE_events, deleteEvent. preserves_with reviews_from_leaf. }
    exact (Hm d (reviews_from_refl d) r').
Qed.

Lemma operations_never_edit_reviews_witness :
  In (sample_review 1 1 1 1 4 4 4 4 4 4)
     (reviews (perform (DeleteReview 2) db_two_reviews)) /\
  ((exists r, In r (reviews db_two_reviews) /\
              (sample_review 1 1 1 1 4 4 4 4 4 4 = r \/
               sample_review 1 1 1 1 4 4 4 4 4 4 = ReviewRow.set_reported r))
   \/ submitted_by (DeleteReview 2) db_two_reviews
                   (sample_review 1 1 1 1 4 4 4 4 4 4)).
Proof.
  assert (H : In (sample_review 1 1 1 1 4 4 4 4 4 4)
                 (reviews (perform (DeleteReview 2) db_two_reviews)))
    by (simpl; tauto).
  split; [exact H|].
  exact (operations_never_edit_reviews (DeleteReview 2) db_two_reviews _ H).
Defined.

(* ================================================================== *)
(** * Reporting a review *)
(* ================================================================== *)

Lemma mark_reported_twice (id : Z) (r : ReviewRow.t) :
  mark_reported id (mark_reported id r) = mark_reported id r.
Proof.
  unfold mark_reported. destruct (ReviewRow.id r =? id) eqn:E.
  - cbn. now rewrite E.
  - now rewrite E.
Qed.

Lemma with_reviews_same (d : Database) : with_reviews d (reviews d) = d.
Proof. now destruct d. Qed.

(** X9. [reportReview] never throws: for an id no review has it returns
    and leaves the database as it was, and its route still answers 200.
    Reporting twice is reporting once. *)
Theorem reportReview_total_idempotent (id : Z) (d : Database) :
  let once := reportReview id d in
  outcome once = Returned tt /\
  ((forall r, In r (reviews d) -> ReviewRow.id r <> id) ->
   db_after once = d) /\
  db_after (reportReview id (db_after once)) = db_after once /\
  outcome (POST_reviews_report id d)
    = Returned (mkResponse 200 (Message "Review reported")) /\
  db_after (POST_reviews_report id d) = db_after once.
Proof.
  intros once. subst once. rewrite !reportReview_run. cbn [db_after outcome].
  split; [reflexivity|]. split; [|split; [|split; reflexivity]].
  - intros Hnone.
    replace (map (mark_reported id) (reviews d)) with (reviews d);
      [apply with_reviews_same|].
    rewrite <- (map_id (reviews d)) at 1. apply map_ext_in.
    intros r Hr. unfold mark_reported.
    specialize (Hnone r Hr). apply Z.eqb_neq in Hnone. now rewrite Hnone.
  - unfold with_reviews. cbn [reviews users officials events eventOfficials
      eventTeams officials_id_seq reviews_id_seq].
    rewrite map_map.
    now rewrite (map_ext _ _ (mark_reported_twice id)).
Qed.

(* ================================================================== *)
(** * Listings *)
(* ================================================================== *)

(** X10. [getReviewsForOfficial] changes nothing and returns reviews of
    that official only, the most recent first. *)
Theorem getReviewsForOfficial_newest_first (id : Z) (d : Database) :
  exists rs,
    getReviewsForOfficial id d = mkRun d [] (Returned rs) /\
    StronglySorted newer_first rs /\
    (forall j, In j rs -> ReviewRow.officialId (Review.row j) = id) /\
    (forall j, In j rs -> In (Review.row j) (reviews d)).
Proof.
  exists (reviews_for_official id d). split; [reflexivity|].
  split; [apply orderBy_date_desc_sorted|]. split.
  - intros j Hj. apply reviews_for_official_In in Hj.
    destruct Hj as [r [u [e [_ [_ [_ [Hid [_ [_ ->]]]]]]]]]. exact Hid.
  - intros j. apply reviews_for_official_row.
Qed.

Lemma insert_event_by_date_desc_perm (x : Event.t) (l : list Event.t) :
  Permutation (insert_event_by_date_desc x l) (x :: l).
Proof.
  induction l as [|y l IH]; simpl; [apply Permutation_refl|].
  destruct (Event.date y <=? Event.date x); [apply Permutation_refl|].
  apply perm_trans with (y :: x :: l); [now apply perm_skip|apply perm_swap].
Qed.

Lemma orderBy_event_date_desc_perm (l : list Event.t) :
  Permutation (orderBy_event_date_desc l) l.
Proof.
  induction l as [|x l IH]; simpl; [apply perm_nil|].
  eapply perm_trans; [apply insert_event_by_date_desc_perm|].
  now apply perm_skip.
Qed.

Lemma insert_event_by_date_desc_sorted (x : Event.t) (l : list Event.t) :
  StronglySorted newer_event_first l ->
  StronglySorted newer_event_first (insert_event_by_date_desc x l).
Proof.
  induction 1 as [|y l Hs IH Hall]; simpl.
  - constructor; constructor.
  - destruct (Event.date y <=? Event.date x) eqn:E.
    + apply Z.leb_le in E. constructor; [now constructor|].
      constructor; [exact E|].
      eapply Forall_impl; [|exact Hall].
      unfold newer_event_first. intros; lia.
    + apply Z.leb_gt in E. constructor; [assumption|].
      apply (Permutation_Forall
               (Permutation_sym (insert_event_by_date_desc_perm x l))).
      constructor; [unfold newer_event_first; lia|assumption].
Qed.

Lemma orderBy_event_date_desc_sorted (l : list Event.t) :
  StronglySorted newer_event_first (orderBy_event_date_desc l).
Proof.
  induction l as [|x l IH]; simpl; [constructor|].
  now apply insert_event_by_date_desc_sorted.
Qed.

(** X11. [getEventsForOfficial] returns, the most recent first, exactly
    the stored events to which an assignment links the official: an
    assignment to an event whose row is gone lists nothing. *)
Theorem getEventsForOfficial_listing (officialId : Z) (d : Database) :
  exists es,
    getEventsForOfficial officialId d = mkRun d [] (Returned es) /\
    StronglySorted newer_event_first es /\
    (forall e, In e es <->
       In e (events d) /\
       exists a, In a (eventOfficials d) /\
                 EventOfficial.officialId a = officialId /\
                 EventOfficial.eventId a = Event.id e).
Proof.
  eexists. split; [reflexivity|].
  split; [apply orderBy_event_date_desc_sorted|].
  intros e. split.
  - intros H.
    apply (Permutation_in _ (orderBy_event_date_desc_perm _)) in H.
    apply in_map_iff in H. destruct H as [[a e'] [He H]]. cbn in He. subst e'.
    apply filter_In in H. destruct H as [H Hid]. cbn in Hid.
    apply Z.eqb_eq in Hid.
    unfold eventOfficials_join_events in H.
    apply in_flat_map in H. destruct H as [a' [Ha' H]].
    apply in_map_iff in H. destruct H as [e' [Hp He']].
    injection Hp as -> ->.
    apply filter_In in He'. destruct He' as [He' Heid].
    apply Z.eqb_eq in Heid. split; [assumption|]. now exists a.
  - intros [He [a [Ha [Hid Heid]]]].
    apply (Permutation_in _ (Permutation_sym (orderBy_event_date_desc_perm _))).
    apply in_map_iff. exists (a, e). split; [reflexivity|].
    apply filter_In. split; [|cbn; now apply Z.eqb_eq].
    unfold eventOfficials_join_events.
    apply in_flat_map. exists a. split; [assumption|].
    apply in_map_iff. exists e. split; [reflexivity|].
    apply filter_In. split; [assumption|now apply Z.eqb_eq].
Qed.

Lemma getEventOfficials_In (eventId : Z) (d : Database) (o : Official.t) :
  In o (map snd
          (filter (fun p => EventOfficial.eventId (fst p) =? eventId)
                  (eventOfficials_join_officials d))) <->
  In o (officials d) /\
  exists a, In a (eventOfficials d) /\
            EventOfficial.eventId a = eventId /\
            EventOfficial.officialId a = Official.id o.
Proof.
  split.
  - intros H. apply in_map_iff in H. destruct H as [[a o'] [Ho H]].
    cbn in Ho. subst o'.
    apply filter_In in H. destruct H as [H Hid]. cbn in Hid.
    apply Z.eqb_eq in Hid.
    unfold eventOfficials_join_officials in H.
    apply in_flat_map in H. destruct H as [a' [Ha' H]].
    apply in_map_iff in H. destruct H as [o' [Hp Ho']].
    injection Hp as -> ->.
    apply filter_In in Ho'. destruct Ho' as [Ho' Hoid].
    apply Z.eqb_eq in Hoid. split; [assumption|]. now exists a.
  - intros [Ho [a [Ha [Heid Hoid]]]].
    apply in_map_iff. exists (a, o). split; [reflexivity|].
    apply filter_In. split; [|cbn; now apply Z.eqb_eq].
    unfold eventOfficials_join_officials.
    apply in_flat_map. exists a. split; [assumption|].
    apply in_map_iff. exists o. split; [reflexivity|].
    apply filter_In. split; [assumption|now apply Z.eqb_eq].
Qed.

(** X12. [getEventOfficials] lists exactly the stored officials an
    assignment links to the event, and an official it lists can be
    reviewed for that event: for such a pair [createReview] never throws
    the not-assigned error. *)
Theorem listed_official_can_be_reviewed
        (eventId : Z) (d : Database) (os : list Official.t) :
  outcome (getEventOfficials eventId d) = Returned os ->
  db_after (getEventOfficials eventId d) = d /\
  (forall o, In o os <->
     In o (officials d) /\
     exists a, In a (eventOfficials d) /\
               EventOfficial.eventId a = eventId /\
               EventOfficial.officialId a = Official.id o) /\
  (forall o now review,
     In o os ->
     InsertReview.officialId review = Official.id o ->
     InsertReview.eventId review = eventId ->
     outcome (createReview now review d) <> Thrown OfficialNotAssignedError).
Proof.
  intros Hos. injection Hos as <-.
  split; [reflexivity|]. split; [intros o; apply getEventOfficials_In|].
  intros o now review Ho Hoid Heid.
  apply getEventOfficials_In in Ho.
  destruct Ho as [_ [a [Ha [Haeid Haoid]]]].
  rewrite createReview_run.
  destruct (filter (same_triple review) (reviews d)); [|discriminate].
  destruct (filter (assigns review) (eventOfficials d)) eqn:E;
    [|discriminate].
  exfalso. rewrite filter_nil_iff in E. specialize (E a Ha).
  assert (assigns review a = true) by (apply assigns_spec; split; congruence).
  congruence.
Qed.

Lemma listed_official_can_be_reviewed_witness :
  outcome (createReview 1700000200000 (sample_insert 1 1 1 3) db_unreviewed)
  <> Thrown OfficialNotAssignedError.
Proof.
  refine (proj2 (proj2 (listed_official_can_be_reviewed
                          1 db_unreviewed [sample_official 1 4 3] eq_refl))
            (sample_official 1 4 3) 1700000200000 (sample_insert 1 1 1 3)
            _ eq_refl eq_refl).
  now left.
Defined.

(* ================================================================== *)
(** * Deleting an official or an event *)
(* ================================================================== *)

Lemma createReview_unassigned (now : Z) (review : InsertReview.t)
      (d : Database) :
  (forall r, In r (reviews d) -> same_triple review r = false) ->
  (forall a, In a (eventOfficials d) -> assigns review a = false) ->
  createReview now review d = mkRun d [] (Thrown OfficialNotAssignedError).
Proof.
  intros Hdup Hasg. rewrite createReview_run.
  rewrite (proj2 (filter_nil_iff _ _) Hdup).
  now rewrite (proj2 (filter_nil_iff _ _) Hasg).
Qed.

(** X13. [deleteOfficial] always returns.  Afterwards the official, its
    assignments and its reviews are gone and every other row of those
    tables is in place; the official is not found, has no valid review
    and is listed for no event; the fresh aggregate of every other
    official is unchanged; and a review submitted for the deleted
    official is refused with the not-assigned error. *)
Theorem deleteOfficial_cascade (id : Z) (d : Database) :
  let run := deleteOfficial id d in
  let d' := db_after run in
  outcome run = Returned tt /\
  (forall o, In o (officials d') <->
             In o (officials d) /\ Official.id o <> id) /\
  (forall a, In a (eventOfficials d') <->
             In a (eventOfficials d) /\ EventOfficial.officialId a <> id) /\
  (forall r, In r (reviews d') <->
             In r (reviews d) /\ ReviewRow.officialId r <> id) /\
  users d' = users d /\ events d' = events d /\
  outcome (getOfficialById id d') = Returned None /\
  reviews_for_official id d' = [] /\
  (forall eventId os,
     outcome (getEventOfficials eventId d') = Returned os ->
     forall o, In o os -> Official.id o <> id) /\
  (forall oid, oid <> id -> fresh_rating oid d' = fresh_rating oid d) /\
  (forall now review,
     InsertReview.officialId review = id ->
     createReview now review d'
     = mkRun d' [] (Thrown OfficialNotAssignedError)).
Proof.
  intros run d'. subst run d'. rewrite deleteOfficial_run.
  cbn [db_after outcome].
  set (d' := mkDatabase _ _ _ _ _ _ _ _).
  assert (Hoff : forall o, In o (officials d') <->
                           In o (officials d) /\ Official.id o <> id).
  { intros o. cbn. rewrite filter_In, negb_true_iff, Z.eqb_neq. tauto. }
  assert (Hasg : forall a, In a (eventOfficials d') <->
                           In a (eventOfficials d) /\
                           EventOfficial.officialId a <> id).
  { intros a. cbn. rewrite filter_In, negb_true_iff, Z.eqb_neq. tauto. }
  assert (Hrev : forall r, In r (reviews d') <->
                           In r (reviews d) /\ ReviewRow.officialId r <> id).
  { intros r. cbn. rewrite filter_In, negb_true_iff, Z.eqb_neq. tauto. }
  split; [reflexivity|]. split; [exact Hoff|]. split; [exact Hasg|].
  split; [exact Hrev|]. split; [reflexivity|]. split; [reflexivity|].
  split.
  { rewrite getOfficialById_run. cbn [outcome]. do 2 f_equal.
    apply hd_error_None, filter_nil_iff. intros o Ho.
    apply Hoff in Ho. now apply Z.eqb_neq. }
  split.
  { destruct (reviews_for_official id d') as [|j l] eqn:E; [reflexivity|].
    exfalso. assert (Hj : In j (reviews_for_official id d'))
      by (rewrite E; now left).
    apply reviews_for_official_In in Hj.
    destruct Hj as [r [_ [_ [Hr [_ [_ [Hid _]]]]]]].
    apply Hrev in Hr. tauto. }
  split.
  { intros eventId os Hos o Ho. injection Hos as <-.
    apply getEventOfficials_In in Ho. destruct Ho as [Ho _].
    now apply Hoff in Ho. }
  split.
  { intros oid Hne.
    exact (fresh_rating_after_deleteOfficial id oid d Hne). }
  intros now review Hid. apply createReview_unassigned.
  - intros r Hr. apply Hrev in Hr. destruct Hr as [_ Hr].
    destruct (same_triple review r) eqn:E; [|reflexivity].
    apply same_triple_spec in E. exfalso. apply Hr. lia.
  - intros a Ha. apply Hasg in Ha. destruct Ha as [_ Ha].
    destruct (assigns review a) eqn:E; [|reflexivity].
    apply assigns_spec in E. exfalso. apply Ha. lia.
Qed.

(** X14. [deleteEvent] always returns.  Afterwards the assignments and
    the team links of the event are gone and the others are in place, no
    official is listed for the event, the officials table is untouched,
    and a review submitted for the deleted event is refused with the
    not-assigned error. *)
Theorem deleteEvent_cascade (id : Z) (d : Database) :
  let run := deleteEvent id d in
  let d' := db_after run in
  outcome run = Returned tt /\
  (forall a, In a (eventOfficials d') <->
             In a (eventOfficials d) /\ EventOfficial.eventId a <> id) /\
  (forall t, In t (eventTeams d') <->
             In t (eventTeams d) /\ EventTeam.eventId t <> id) /\
  users d' = users d /\
  outcome (getEventById id d') = Returned None /\
  outcome (getEventOfficials id d') = Returned [] /\
  (forall now review,
     InsertReview.eventId review = id ->
     createReview now review d'
     = mkRun d' [] (Thrown OfficialNotAssignedError)).
Proof.
  intros run d'. subst run d'. rewrite deleteEvent_run.
  cbn [db_after outcome].
  set (d' := mkDatabase _ _ _ _ _ _ _ _).
  assert (Hasg : forall a, In a (eventOfficials d') <->
                           In a (eventOfficials d) /\
                           EventOfficial.eventId a <> id).
  { intros a. cbn. rewrite filter_In, negb_true_iff, Z.eqb_neq. tauto. }
  assert (Hrev : forall r, In r (reviews d') ->
                           ReviewRow.eventId r <> id).
  { intros r. cbn. rewrite filter_In, negb_true_iff, Z.eqb_neq. tauto. }
  split; [reflexivity|]. split; [exact Hasg|].
  split.
  { intros t. cbn. rewrite filter_In, negb_true_iff, Z.eqb_neq. tauto. }
  split; [reflexivity|]. split.
  { unfold getEventById, bind, query, ret. cbn [outcome db_after].
    do 2 f_equal. apply hd_error_None, filter_nil_iff.
    intros e He. cbn in He. apply filter_In in He.
    destruct He as [_ He]. now apply negb_true_iff in He. }
  split.
  { unfold getEventOfficials, query. cbn [outcome]. f_equal.
    destruct (map snd _) as [|o l] eqn:E; [reflexivity|].
    exfalso. assert (Ho : In o (o :: l)) by now left.
    rewrite <- E in Ho. apply getEventOfficials_In in Ho.
    destruct Ho as [_ [a [Ha [Heid _]]]]. apply Hasg in Ha. tauto. }
  intros now review Hid. apply createReview_unassigned.
  - intros r Hr. apply Hrev in Hr.
    destruct (same_triple review r) eqn:E; [|reflexivity].
    apply same_triple_spec in E. exfalso. apply Hr. lia.
  - intros a Ha. apply Hasg in Ha. destruct Ha as [_ Ha].
    destruct (assigns review a) eqn:E; [|reflexivity].
    apply assigns_spec in E. exfalso. apply Ha. lia.
Qed.

(* ================================================================== *)
(** * Paging and creating officials *)
(* ================================================================== *)

Lemma In_firstn_skipn {A : Type} (n m : nat) (l : list A) (x : A) :
  In x (firstn n (skipn m l)) -> In x l.
Proof.
  intros H.
  rewrite <- (firstn_skipn m l). apply in_or_app. right.
  rewrite <- (firstn_skipn n (skipn m l)). apply in_or_app. now left.
Qed.

(** X15. For a page number from 1 and a limit that is not negative,
    [getOfficials] changes nothing and reports the size of the whole
    table whatever the page.  The rows it returns are rows of the
    table, as many as the limit allows and the table has left after the
    pages before; a page that starts past the end is empty. *)
Theorem getOfficials_pages (page limit : Z) (d : Database) :
  1 <= page -> 0 <= limit ->
  exists rows,
    getOfficials page limit d =
      mkRun d []
        (Returned (mkOfficialsPage rows (Z.of_nat (length (officials d))))) /\
    Z.of_nat (length rows) =
      Z.min limit
            (Z.max 0 (Z.of_nat (length (officials d)) - (page - 1) * limit)) /\
    (forall o, In o rows -> In o (officials d)) /\
    (Z.of_nat (length (officials d)) <= (page - 1) * limit -> rows = []).
Proof.
  intros Hpage Hlimit.
  exists (firstn (Z.to_nat limit)
                 (skipn (Z.to_nat ((page - 1) * limit)) (officials d))).
  split; [reflexivity|]. split; [|split].
  - rewrite length_firstn, length_skipn. nia.
  - intros o. apply In_firstn_skipn.
  - intros Hpast. rewrite skipn_all2 by lia. apply firstn_nil.
Qed.

Lemma getOfficials_pages_witness :
  exists rows,
    getOfficials 2 20 db_21_officials =
      mkRun db_21_officials [] (Returned (mkOfficialsPage rows 21)) /\
    Z.of_nat (length rows) = 1.
Proof.
  destruct (getOfficials_pages 2 20 db_21_officials) as [rows [H1 [H2 _]]];
    [lia|lia|].
  exists rows. split; [exact H1|exact H2].
Defined.

(** X16. With distinct official ids handed out by the sequence,
    [createOfficial] returns a row with the next id, a rating of 0 over
    0 reviews, and the photo path prefixed with a slash when there is
    one; that row is what [getOfficialById] then finds under its id, and
    every other id finds what it found before. *)
Theorem createOfficial_found (official : InsertOfficial.t) (d : Database) :
  officials_keyed d ->
  let run := createOfficial official d in
  exists o,
    outcome run = Returned o /\
    Official.id o = officials_id_seq d + 1 /\
    Official.averageRating o = 0 /\ Official.totalReviews o = 0 /\
    Official.photoUrl o = stored_photoUrl (InsertOfficial.photoUrl official) /\
    officials (db_after run) = officials d ++ [o] /\
    reviews (db_after run) = reviews d /\
    outcome (getOfficialById (Official.id o) (db_after run))
      = Returned (Some o) /\
    (forall id, id <> Official.id o ->
       outcome (getOfficialById id (db_after run))
       = outcome (getOfficialById id d)).
Proof.
  intros [Hnd Hle] run. subst run.
  eexists. split; [reflexivity|]. cbn [Official.id Official.averageRating
    Official.totalReviews Official.photoUrl].
  do 6 (split; [reflexivity|]). split.
  - rewrite getOfficialById_run. cbn [outcome]. do 2 f_equal.
    change (officials (db_after (createOfficial official d)))
      with (officials d ++
            [Official.mk (officials_id_seq d + 1)
               (InsertOfficial.firstName official)
               (InsertOfficial.lastName official)
               (InsertOfficial.age official)
               (InsertOfficial.location official)
               (InsertOfficial.association official)
               (InsertOfficial.yearsExperience official)
               (stored_photoUrl (InsertOfficial.photoUrl official)) 0 0]).
    rewrite filter_app. cbn [filter Official.id]. rewrite Z.eqb_refl.
    replace (filter _ (officials d)) with (@nil Official.t); [reflexivity|].
    symmetry. apply filter_nil_iff. intros x Hx. apply Z.eqb_neq.
    specialize (Hle x Hx). lia.
  - intros id Hid. rewrite !getOfficialById_run. cbn [outcome].
    do 2 f_equal.
    change (officials (db_after (createOfficial official d)))
      with (officials d ++
            [Official.mk (officials_id_seq d + 1)
               (InsertOfficial.firstName official)
               (InsertOfficial.lastName official)
               (InsertOfficial.age official)
               (InsertOfficial.location official)
               (InsertOfficial.association official)
               (InsertOfficial.yearsExperience official)
               (stored_photoUrl (InsertOfficial.photoUrl official)) 0 0]).
    apply filter_app_one_out. cbn in *. apply Z.eqb_neq. congruence.
Qed.

Lemma createOfficial_found_witness :
  officials_keyed db_unreviewed /\
  exists o,
    outcome (createOfficial
               (InsertOfficial.mk "Riley" "Referee" 35 "Shelbyville"
                                  "State Association" 7 (Some "uploads/r.png"))
               db_unreviewed) = Returned o /\
    Official.id o = 2.
Proof.
  assert (H : officials_keyed db_unreviewed).
  { split.
    - repeat constructor. intros [].
    - intros o [<-|[]]. simpl. lia. }
  split; [exact H|].
  destruct (createOfficial_found
              (InsertOfficial.mk "Riley" "Referee" 35 "Shelbyville"
                                 "State Association" 7 (Some "uploads/r.png"))
              db_unreviewed H) as [o [H1 [H2 _]]].
  exists o. split; [exact H1|exact H2].
Defined.

(* ================================================================== *)
(** * Routes *)
(* ================================================================== *)

Lemma deleteReview_missing (id : Z) (d : Database) :
  (forall r, In r (reviews d) -> ReviewRow.id r <> id) ->
  deleteReview id d = mkRun d [] (Thrown ReviewNotFoundError).
Proof.
  intros Hnone. rewrite deleteReview_run.
  replace (filter (fun r => ReviewRow.id r =? id) (reviews d))
    with (@nil ReviewRow.t); [reflexivity|].
  symmetry. apply filter_nil_iff. intros r Hr. apply Z.eqb_neq.
  now apply Hnone.
Qed.

Lemma deleteReview_present (id : Z) (d : Database) :
  (exists r, In r (reviews d) /\ ReviewRow.id r = id) ->
  outcome (deleteReview id d) = Returned tt /\ console (deleteReview id d) = [].
Proof.
  intros [r [Hr Hid]]. rewrite deleteReview_run.
  destruct (filter (fun r => ReviewRow.id r =? id) (reviews d)) eqn:E.
  - rewrite filter_nil_iff in E. specialize (E r Hr).
    apply Z.eqb_neq in E. contradiction.
  - split; reflexivity.
Qed.

(** X17. The route that deletes a review never throws.  For a session
    user who is neither admin nor regional supervisor it answers 403 and
    leaves the database as it was; for the others it leaves what
    [deleteReview] leaves, answering 200 when the review exists and 500
    with the review-not-found message, after logging it, when it does
    not. *)
Theorem DELETE_reviews_gate (user : User.t) (id : Z) (d : Database) :
  let run := DELETE_reviews user id d in
  (isAdmin user = false -> isRegionalSupervisor user = false ->
   run = mkRun d []
           (Returned
              (mkResponse 403
                 (Message
                    "Only Admins and Regional Supervisors can delete reviews"))))
  /\
  (isAdmin user = true \/ isRegionalSupervisor user = true ->
   db_after run = db_after (deleteReview id d) /\
   ((forall r, In r (reviews d) -> ReviewRow.id r <> id) ->
    run = mkRun d [ConsoleError "Error deleting review:" ReviewNotFoundError]
            (Returned (mkResponse 500 (Message ReviewNotFoundError)))) /\
   ((exists r, In r (reviews d) /\ ReviewRow.id r = id) ->
    outcome run
    = Returned (mkResponse 200 (Message "Review deleted successfully")) /\
    console run = [])).
Proof.
  intros run. subst run. unfold DELETE_reviews. split.
  - intros -> ->. reflexivity.
  - intros Hpriv.
    assert (Hgate : negb (isAdmin user) && negb (isRegionalSupervisor user)
                    = false).
    { destruct Hpriv as [-> | ->]; [reflexivity|].
      now rewrite andb_false_r. }
    rewrite Hgate. split; [|split].
    + unfold try_catch, bind.
      destruct (outcome (deleteReview id d)); reflexivity.
    + intros Hnone. unfold try_catch, bind.
      now rewrite (deleteReview_missing id d Hnone).
    + intros Hex. destruct (deleteReview_present id d Hex) as [Ho Hc].
      unfold try_catch, bind. rewrite Ho, Hc. split; reflexivity.
Qed.

Lemma DELETE_reviews_gate_witness :
  DELETE_reviews sample_coach 1 db_one_review =
    mkRun db_one_review []
      (Returned
         (mkResponse 403
            (Message
               "Only Admins and Regional Supervisors can delete reviews"))) /\
  outcome (DELETE_reviews sample_supervisor 1 db_one_review)
    = Returned (mkResponse 200 (Message "Review deleted successfully")).
Proof.
  split.
  - exact (proj1 (DELETE_reviews_gate sample_coach 1 db_one_review)
             eq_refl eq_refl).
  - refine (proj1 (proj2 (proj2 (proj2 (DELETE_reviews_gate
              sample_supervisor 1 db_one_review) (or_intror eq_refl))) _)).
    exists (sample_review 1 1 1 1 5 5 5 5 5 5). simpl. tauto.
Defined.





(** X19. The route that refreshes the ratings never throws.  For a
    session user who is not admin it answers 403 without touching the
    database or the console.  For an admin it leaves what
    [refreshAllOfficialRatings] leaves and answers 200 when the batch
    returned; when the batch threw it logs the error a second time and
    answers 500 with a fixed message that does not disclose it. *)
Theorem POST_admin_refresh_ratings_gate
        (fault : StorageFault) (user : User.t) (d : Database) :
  let run := POST_admin_refresh_ratings fault user d in
  let batch := refreshAllOfficialRatings fault d in
  (isAdmin user = false ->
   run = mkRun d []
           (Returned
              (mkResponse 403 (Message "Only Admins can refresh all ratings"))))
  /\
  (isAdmin user = true ->
   db_after run = db_after batch /\
   (outcome batch = Returned tt ->
    outcome run
    = Returned
        (mkResponse 200
           (Message "All official ratings have been refreshed successfully")))
   /\
   (forall e, outcome batch = Thrown e ->
      outcome run
      = Returned (mkResponse 500 (Message "Failed to refresh official ratings"))
      /\
      console run =
        ConsoleLog "Starting refresh of all official ratings"
        :: console batch
        ++ [ConsoleError "Error refreshing official ratings:" e])).
Proof.
  intros run batch. subst run batch. unfold POST_admin_refresh_ratings.
  split.
  - intros ->. reflexivity.
  - intros ->. cbn [negb]. unfold try_catch, bind, console_log, ret.
    cbn [db_after console outcome app].
    split; [|split].
    + destruct (outcome (refreshAllOfficialRatings fault d)); reflexivity.
    + intros ->. reflexivity.
    + intros e ->. cbn [db_after console outcome app console_error].
      split; reflexivity.
Qed.

Lemma POST_admin_refresh_ratings_gate_witness :
  POST_admin_refresh_ratings no_fault sample_coach db_two_officials
  = mkRun db_two_officials []
      (Returned
         (mkResponse 403 (Message "Only Admins can refresh all ratings"))) /\
  outcome (POST_admin_refresh_ratings fault_on_1 sample_admin db_two_officials)
  = Returned (mkResponse 500 (Message "Failed to refresh official ratings")).
Proof.
  split.
  - exact (proj1 (POST_admin_refresh_ratings_gate
                    no_fault sample_coach db_two_officials) eq_refl).
  - exact (proj1 (proj2 (proj2 (proj2 (POST_admin_refresh_ratings_gate
             fault_on_1 sample_admin db_two_officials) eq_refl))
             "Connection terminated unexpectedly" eq_refl)).
Defined.

(** X20. The admin utility always ends with exit code 0, whether the
    batch returned or threw; it leaves the database the batch leaves,
    and the last line it writes is the success line when the batch
    returned and the error when it threw. *)
Theorem refresh_ratings_utility_exit (fault : StorageFault) (d : Database) :
  let run := refresh_ratings_utility fault d in
  let batch := refreshAllOfficialRatings fault d in
  outcome run = Returned 0 /\
  db_after run = db_after batch /\
  (outcome batch = Returned tt ->
   console run =
     ConsoleLog "Starting admin utility to refresh all official ratings"
     :: console batch
     ++ [ConsoleLog "Successfully refreshed all official ratings"]) /\
  (forall e, outcome batch = Thrown e ->
     console run =
       ConsoleLog "Starting admin utility to refresh all official ratings"
       :: console batch
       ++ [ConsoleError "Error refreshing official ratings:" e]).
Proof.
  intros run batch. subst run batch. unfold refresh_ratings_utility.
  unfold try_catch, bind, console_log, console_error, ret.
  cbn [db_after console outcome app].
  destruct (outcome (refreshAllOfficialRatings fault d)) as [[]|e] eqn:E;
    cbn [db_after console outcome app]; rewrite ?app_nil_r.
  - repeat split; try reflexivity. discriminate.
  - repeat split; try reflexivity; try discriminate.
    now intros e' [= <-].
Qed.

(* ================================================================== *)
(** * Settings and teams *)
(* ================================================================== *)

Lemma getSetting_other_key_updated (now : Z) (key key' value : string)
      (l : list Setting.t) :
  key' <> key ->
  filter (fun r => String.eqb (Setting.key r) key')
    (map (fun r =>
            if String.eqb (Setting.key r) key
            then Setting.mk (Setting.id r) (Setting.key r) (Some value) now
            else r) l) =
  filter (fun r => String.eqb (Setting.key r) key') l.
Proof.
  intros Hne. induction l as [|r l IH]; [reflexivity|]. cbn [map filter].
  destruct (String.eqb (Setting.key r) key) eqn:E.
  - cbn [Setting.key]. apply String.eqb_eq in E.
    assert (E' : String.eqb (Setting.key r) key' = false)
      by (apply String.eqb_neq; congruence).
    now rewrite E'.
  - now rewrite IH.
Qed.

(** X21. After [updateSetting key value], [getSetting key] returns
    [value], whether the key was stored before or not, and every other
    key reads as before; the row returned carries the key, the value and
    the clock's date and is in the table. *)
Theorem updateSetting_then_getSetting
        (now : Z) (key value : string) (s : SettingsTable) :
  let s' := fst (updateSetting now key value s) in
  getSetting key s' = Some value /\
  (forall key', key' <> key -> getSetting key' s' = getSetting key' s) /\
  exists row,
    snd (updateSetting now key value s) = Some row /\
    Setting.key row = key /\
    Setting.value row = Some value /\
    Setting.updatedAt row = now /\
    In row (settings s').
Proof.
  intros s'. subst s'. unfold updateSetting.
  destruct (filter (fun r => String.eqb (Setting.key r) key) (settings s))
    as [|r0 rest] eqn:E; cbn [length Nat.ltb Nat.leb fst snd].
  - assert (Hnew : filter (fun r => String.eqb (Setting.key r) key)
                          (settings s ++
                           [Setting.mk (settings_id_seq s + 1) key
                                       (Some value) now]) =
                   [Setting.mk (settings_id_seq s + 1) key (Some value) now]).
    { rewrite filter_app, E. cbn. now rewrite String.eqb_refl. }
    split; [|split].
    + unfold getSetting. cbn [settings]. now rewrite Hnew.
    + intros key' Hne. unfold getSetting. cbn [settings].
      rewrite filter_app_one_out; [reflexivity|].
      cbn. apply String.eqb_neq. congruence.
    + eexists. split; [reflexivity|]. cbn.
      repeat split. apply in_or_app. right. now left.
  - assert (Hr0 : In r0 (settings s) /\ Setting.key r0 = key).
    { assert (H : In r0 (r0 :: rest)) by now left.
      rewrite <- E in H. apply filter_In in H.
      destruct H as [H Hk]. now apply String.eqb_eq in Hk. }
    destruct Hr0 as [Hr0 Hk0].
    set (upd := fun r : Setting.t =>
                  if String.eqb (Setting.key r) key
                  then Setting.mk (Setting.id r) (Setting.key r) (Some value)
                                  now
                  else r).
    assert (Hupd : forall l,
              filter (fun r => String.eqb (Setting.key r) key) (map upd l) =
              map upd (filter (fun r => String.eqb (Setting.key r) key) l)).
    { intros l. apply filter_map_comm. intros x. unfold upd.
      destruct (String.eqb (Setting.key x) key) eqn:Ex; cbn; now rewrite Ex. }
    assert (Hfirst :
              filter (fun r => String.eqb (Setting.key r) key)
                     (map upd (settings s)) =
              Setting.mk (Setting.id r0) key (Some value) now
              :: map upd rest).
    { rewrite Hupd, E. cbn [map]. unfold upd at 1.
      rewrite Hk0, String.eqb_refl. reflexivity. }
    split; [|split].
    + unfold getSetting. cbn [settings]. fold upd. now rewrite Hfirst.
    + intros key' Hne. unfold getSetting. cbn [settings]. unfold upd.
      now rewrite getSetting_other_key_updated.
    + fold upd. cbn [settings]. rewrite Hfirst. eexists.
      split; [reflexivity|]. cbn. repeat split.
      apply in_map_iff. exists r0. split; [|assumption].
      unfold upd. now rewrite Hk0, String.eqb_refl.
Qed.

(** X22. [updateSetting] keeps the keys of the settings distinct: it
    adds a row only for a key that is not stored, and then adds one. *)
Theorem updateSetting_keeps_keys_unique
        (now : Z) (key value : string) (s : SettingsTable) :
  setting_keys_unique s ->
  let s' := fst (updateSetting now key value s) in
  setting_keys_unique s' /\
  ((exists r, In r (settings s) /\ Setting.key r = key) ->
   length (settings s') = length (settings s)) /\
  ((forall r, In r (settings s) -> Setting.key r <> key) ->
   length (settings s') = S (length (settings s))).
Proof.
  intros Hnd s'. subst s'. unfold updateSetting, setting_keys_unique in *.
  destruct (filter (fun r => String.eqb (Setting.key r) key) (settings s))
    as [|r0 rest] eqn:E; cbn [length Nat.ltb Nat.leb fst settings].
  - rewrite filter_nil_iff in E. split; [|split].
    + apply NoDup_map_snoc; [assumption|].
      intros Hin. apply in_map_iff in Hin. destruct Hin as [r [Hk Hr]].
      specialize (E r Hr). cbn in Hk. apply String.eqb_neq in E.
      contradiction.
    + intros [r [Hr Hk]]. specialize (E r Hr).
      apply String.eqb_neq in E. contradiction.
    + intros _. rewrite length_app. cbn. lia.
  - split; [|split].
    + rewrite map_map.
      rewrite (map_ext _ Setting.key); [assumption|].
      intros r. now destruct (String.eqb (Setting.key r) key).
    + intros _. apply length_map.
    + intros Hnone. exfalso.
      assert (H : In r0 (r0 :: rest)) by now left.
      rewrite <- E in H. apply filter_In in H. destruct H as [H Hk].
      apply String.eqb_eq in Hk. exact (Hnone r0 H Hk).
Qed.

Lemma updateSetting_keeps_keys_unique_witness :
  setting_keys_unique settings_empty /\
  setting_keys_unique
    (fst (updateSetting 1700000200000 "backgroundImage" "/uploads/bg.png"
            (fst (updateSetting 1700000100000 "backgroundImage"
                    "/uploads/old.png" settings_empty)))).
Proof.
  assert (H0 : setting_keys_unique settings_empty) by constructor.
  split; [exact H0|].
  apply (updateSetting_keeps_keys_unique 1700000200000).
  exact (proj1 (updateSetting_keeps_keys_unique
                  1700000100000 "backgroundImage" "/uploads/old.png"
                  settings_empty H0)).
Defined.

Lemma filter_by_id (team : Team.t) (l : list Team.t) :
  NoDup (map Team.id l) -> In team l ->
  filter (fun x => Team.id x =? Team.id team) l = [team].
Proof.
  induction l as [|y l IH]; simpl; [contradiction|].
  intros Hnd Hin. inversion Hnd as [|? ? Hy Hnd']; subst.
  destruct Hin as [->|Hin].
  - rewrite Z.eqb_refl. f_equal. apply filter_nil_iff.
    intros x Hx. apply Z.eqb_neq. intros E. apply Hy.
    rewrite <- E. now apply in_map.
  - destruct (Team.id y =? Team.id team) eqn:E.
    + exfalso. apply Z.eqb_eq in E. apply Hy. rewrite E. now apply in_map.
    + now apply IH.
Qed.

(** X23. [createTeam] finds or creates.  The team it returns has the
    given name and is stored; no stored team is removed or changed;
    calling it again with the same name returns the same team and
    changes nothing.  With distinct names and ids handed out by the
    sequence, names and ids stay distinct and [getTeamById] finds the
    returned team under its id. *)
Theorem createTeam_finds_or_creates
        (now now' : Z) (name : string) (t : TeamsTable) :
  let t' := fst (createTeam now name t) in
  let team := snd (createTeam now name t) in
  Team.name team = name /\
  In team (teams t') /\
  (forall x, In x (teams t) -> In x (teams t')) /\
  ((exists x, In x (teams t) /\ Team.name x = name) -> t' = t) /\
  createTeam now' name t' = (t', team) /\
  (teams_keyed t ->
   teams_keyed t' /\ getTeamById (Team.id team) t' = Some team).
Proof.
  intros t' team. subst t' team. unfold createTeam.
  destruct (filter (fun x => String.eqb (Team.name x) name) (teams t))
    as [|x0 rest] eqn:E; cbn [fst snd].
  - assert (Hnew : filter (fun x => String.eqb (Team.name x) name)
                          (teams t ++ [Team.mk (teams_id_seq t + 1) name now])
                   = [Team.mk (teams_id_seq t + 1) name now]).
    { rewrite filter_app, E. cbn. now rewrite String.eqb_refl. }
    split; [reflexivity|]. split; [apply in_or_app; right; now left|].
    split; [intros x Hx; apply in_or_app; now left|].
    split.
    { intros [x [Hx Hn]]. rewrite filter_nil_iff in E. specialize (E x Hx).
      apply String.eqb_neq in E. contradiction. }
    split; [cbn [teams]; now rewrite Hnew|].
    intros [Hnames [Hids Hle]].
    assert (Hkeyed : teams_keyed
                       (mkTeamsTable
                          (teams t ++ [Team.mk (teams_id_seq t + 1) name now])
                          (teams_id_seq t + 1))).
    { split; [|split]; cbn [teams teams_id_seq].
      - apply NoDup_map_snoc; [assumption|].
        intros Hin. apply in_map_iff in Hin. destruct Hin as [x [Hn Hx]].
        rewrite filter_nil_iff in E. specialize (E x Hx).
        apply String.eqb_neq in E. cbn in Hn. contradiction.
      - apply NoDup_map_snoc; [assumption|].
        intros Hin. apply in_map_iff in Hin. destruct Hin as [x [Hi Hx]].
        specialize (Hle x Hx). cbn in Hi. lia.
      - intros x Hx. apply in_app_or in Hx.
        destruct Hx as [Hx|[<-|[]]]; [specialize (Hle x Hx)|cbn]; lia. }
    split; [exact Hkeyed|].
    unfold getTeamById.
    rewrite (filter_by_id (Team.mk (teams_id_seq t + 1) name now));
      [reflexivity|apply Hkeyed|].
    cbn [teams]. apply in_or_app. right. now left.
  - assert (Hx0 : In x0 (teams t) /\ Team.name x0 = name).
    { assert (H : In x0 (x0 :: rest)) by now left.
      rewrite <- E in H. apply filter_In in H.
      destruct H as [H Hn]. now apply String.eqb_eq in Hn. }
    destruct Hx0 as [Hx0 Hn0].
    split; [exact Hn0|]. split; [exact Hx0|].
    split; [tauto|]. split; [reflexivity|].
    split; [now rewrite E|].
    intros Hkeyed. split; [exact Hkeyed|].
    unfold getTeamById. rewrite (filter_by_id x0); [reflexivity| |assumption].
    apply Hkeyed.
Qed.

Lemma createTeam_finds_or_creates_witness :
  teams_keyed teams_empty /\
  getTeamById 1 (fst (createTeam 1700000200000 "Central High" teams_empty))
  = Some (Team.mk 1 "Central High" 1700000200000).
Proof.
  assert (H0 : teams_keyed teams_empty).
  { split; [constructor|split; [constructor|intros x []]]. }
  split; [exact H0|].
  exact (proj2 (proj2 (proj2 (proj2 (proj2 (proj2
           (createTeam_finds_or_creates 1700000200000 1700000200000
              "Central High" teams_empty))))) H0)).
Defined.

(* ================================================================== *)
(** * Missing rows *)
(* ================================================================== *)

Lemma with_officials_same (d : Database) : with_officials d (officials d) = d.
Proof. now destruct d. Qed.

(** X24. Recomputing an official that is not stored is not an error:
    [updateOfficialRating] returns and leaves the database as it was. *)
Theorem updateOfficialRating_missing (id : Z) (d : Database) :
  (forall o, In o (officials d) -> Official.id o <> id) ->
  updateOfficialRating id d = mkRun d [] (Returned tt).
Proof.
  intros Hnone. rewrite updateOfficialRating_run. f_equal.
  rewrite <- (with_officials_same d) at 3. f_equal.
  rewrite <- (map_id (officials d)) at 2. apply map_ext_in.
  intros o Ho. specialize (Hnone o Ho). apply Z.eqb_neq in Hnone.
  now rewrite Hnone.
Qed.

Lemma updateOfficialRating_missing_witness :
  updateOfficialRating 7 db_one_review = mkRun db_one_review [] (Returned tt).
Proof.
  apply (updateOfficialRating_missing 7 db_one_review).
  intros o [<-|[]]. discriminate.
Defined.

Lemma getUserById_run (id : Z) (d : Database) :
  getUserById id d =
  mkRun d [] (Returned (hd_error (filter (fun u => User.id u =? id) (users d)))).
Proof. reflexivity. Qed.

(** X25. The route that deletes a user never throws.  For an id no user
    has it answers 404 and leaves the database as it was; otherwise it
    answers 200 and leaves what [deleteUser] leaves, in which the user is
    no longer found, so that deleting the same user again answers
    404. *)
Theorem DELETE_admin_users_found_once (userId : Z) (d : Database) :
  let run := DELETE_admin_users userId d in
  ((forall u, In u (users d) -> User.id u <> userId) ->
   run = mkRun d [] (Returned (mkResponse 404 (Message "User not found")))) /\
  ((exists u, In u (users d) /\ User.id u = userId) ->
   run = mkRun (db_after (deleteUser userId d)) []
           (Returned (mkResponse 200 (Message "User deleted successfully"))) /\
   outcome (getUserById userId (db_after run)) = Returned None /\
   outcome (DELETE_admin_users userId (db_after run))
   = Returned (mkResponse 404 (Message "User not found"))).
Proof.
  intros run. subst run.
  assert (Hmissing : forall d0,
            (forall u, In u (users d0) -> User.id u <> userId) ->
            DELETE_admin_users userId d0 =
            mkRun d0 [] (Returned (mkResponse 404 (Message "User not found")))).
  { intros d0 Hnone. unfold DELETE_admin_users, try_catch.
    rewrite (bind_returned (getUserById userId) _ d0 None).
    - reflexivity.
    - rewrite getUserById_run. cbn [outcome]. do 2 f_equal.
      apply hd_error_None, filter_nil_iff. intros u Hu.
      apply Z.eqb_neq. now apply Hnone.
    - reflexivity. }
  assert (Hgone : forall u, In u (users (db_after (deleteUser userId d))) ->
                            User.id u <> userId).
  { intros u Hu. rewrite deleteUser_run in Hu. cbn in Hu.
    apply filter_In in Hu. destruct Hu as [_ Hu].
    now apply negb_true_iff, Z.eqb_neq in Hu. }
  split; [apply Hmissing|].
  intros [u [Hu Hid]].
  assert (Hrun : DELETE_admin_users userId d =
                 mkRun (db_after (deleteUser userId d)) []
                   (Returned
                      (mkResponse 200 (Message "User deleted successfully")))).
  { unfold DELETE_admin_users, try_catch.
    destruct (filter (fun x => User.id x =? userId) (users d))
      as [|u0 rest] eqn:E.
    - rewrite filter_nil_iff in E. specialize (E u Hu).
      apply Z.eqb_neq in E. contradiction.
    - rewrite (bind_returned (getUserById userId) _ d (Some u0)).
      + reflexivity.
      + rewrite getUserById_run. cbn [outcome]. now rewrite E.
      + reflexivity. }
  rewrite Hrun. cbn [db_after]. split; [reflexivity|]. split.
  - rewrite getUserById_run. cbn [outcome]. do 2 f_equal.
    apply hd_error_None, filter_nil_iff. intros x Hx.
    apply Z.eqb_neq. now apply Hgone.
  - now rewrite (Hmissing _ Hgone).
Qed.

Lemma DELETE_admin_users_found_once_witness :
  outcome (DELETE_admin_users 1
             (db_after (DELETE_admin_users 1 db_one_review)))
  = Returned (mkResponse 404 (Message "User not found")).
Proof.
  refine (proj2 (proj2 (proj2 (DELETE_admin_users_found_once 1 db_one_review)
                          _))).
  exists (sample_user 1). simpl. tauto.
Defined.

(** X26. The route that deletes an event never throws.  For a session
    user who is neither admin nor regional supervisor it answers 403 and
    leaves the database as it was; for the others it answers 200 and
    leaves what [deleteEvent] leaves, also when no event has that id, in
    which case nothing is removed. *)
Theorem DELETE_events_gate (privileged : bool) (id : Z) (d : Database) :
  let run := DELETE_events privileged id d in
  (privileged = false ->
   run = mkRun d []
           (Returned
              (mkResponse 403
                 (Message
                    "Only Admins and Regional Supervisors can delete events"))))
  /\
  (privileged = true ->
   run = mkRun (db_after (deleteEvent id d)) []
           (Returned (mkResponse 200 (Message "Event deleted successfully"))) /\
   ((forall e, In e (events d) -> Event.id e <> id) ->
    (forall a, In a (eventOfficials d) -> EventOfficial.eventId a <> id) ->
    (forall t, In t (eventTeams d) -> EventTeam.eventId t <> id) ->
    (forall r, In r (reviews d) -> ReviewRow.eventId r <> id) ->
    db_after run = d)).
Proof.
  intros run. subst run. split.
  - intros ->. reflexivity.
  - intros ->. split; [reflexivity|].
    intros He Ha Ht Hr. cbn [DELETE_events negb].
    change (db_after (DELETE_events true id d))
      with (db_after (deleteEvent id d)).
    rewrite deleteEvent_run. cbn [db_after]. destruct d. cbn in *.
    f_equal; apply filter_all; intros x Hx; apply negb_true_iff, Z.eqb_neq;
      auto.
Qed.

Lemma DELETE_events_gate_witness :
  DELETE_events false 1 db_one_review =
    mkRun db_one_review []
      (Returned
         (mkResponse 403
            (Message
               "Only Admins and Regional Supervisors can delete events"))) /\
  db_after (DELETE_events true 9 db_one_review) = db_one_review.
Proof.
  split.
  - exact (proj1 (DELETE_events_gate false 1 db_one_review) eq_refl).
  - refine (proj2 (proj2 (DELETE_events_gate true 9 db_one_review) eq_refl)
              _ _ _ _).
    + intros e [<-|[]]. discriminate.
    + intros a [<-|[]]. discriminate.
    + intros t [].
    + intros r [<-|[]]. discriminate.
Defined.
